(** * plot-grid: the axis state engine of [src/core.js]

    A shallow embedding of the constructor [Grid], of
    [Grid.prototype.update] and [Grid.prototype.calcLines], of the pan/zoom
    handler and of the axis prototypes, followed by the properties of the
    specification.

    Conventions of the embedding.
    - A JavaScript number is a [num]: NaN, the two infinities, or a finite
      rational.  Finite arithmetic is exact and saturates to an infinity
      beyond [Number.MAX_VALUE]; rounding and the sign of zero are not
      represented.
    - A JavaScript value is a [value]; plain objects are finite maps from
      property names to values, arrays are lists.  A finite map does not
      keep the order in which its properties were created ([for_in] says
      what the enumeration of an object is).  Values carry no identity:
      two arrays or objects never compare equal under [===], and the cyclic
      references of the source ([state.grid], [state.opposite]) are
      replaced as said where they occur.
    - Functions stored in configuration fields are function ids ([fn]); the
      functions defined in [core.js] have their own ids and bodies, the
      others are callbacks interpreted by the environment.  Callbacks are
      pure and total, and function values carry no properties.
    - Numeric fields are read through the number conversion [to_num].
    - What is required from other modules ([./types], [just-extend],
      [mumath/clamp], [color-alpha], [parse-unit], [to-px], [is-plain-obj])
      is either a field of the environment [env] or, where its definition is
      a few lines, written out ([extend], [clamp], [isObj]).
    - An operation of the source that throws returns [None]; so do the few
      inputs that the embedding leaves out, which are named at the
      definitions concerned. *)

From Stdlib Require Import QArith Qreduction Qround Lia Lqa.
From Stdlib Require Qcanon.
From stdpp Require Import gmap strings list fin_maps pretty sorting.

Set Warnings "-register-all".
Local Open Scope Q_scope.

(** ** Numbers *)

Inductive num : Type :=
| NaN
| NInf
| PInf
| Fin (q : Q).

(** [Number.MAX_VALUE] = 2^1024 - 2^971 and [Number.EPSILON] = 2^-52. *)
Definition MAX_VALUE : Q := inject_Z (2 ^ 1024 - 2 ^ 971).
Definition EPSILON : Q := Qmake 1 (2 ^ 52).

Definition Qlt_bool (a b : Q) : bool := negb (Qle_bool b a).

(** A finite result, saturated at the largest double. *)
Definition norm (q : Q) : num :=
  if Qlt_bool MAX_VALUE q then PInf
  else if Qlt_bool q (- MAX_VALUE) then NInf
  else Fin (Qred q).

Definition nneg (a : num) : num :=
  match a with
  | NaN => NaN
  | NInf => PInf
  | PInf => NInf
  | Fin q => Fin (Qred (- q))
  end.

Definition nadd (a b : num) : num :=
  match a, b with
  | NaN, _ | _, NaN => NaN
  | PInf, NInf | NInf, PInf => NaN
  | PInf, _ | _, PInf => PInf
  | NInf, _ | _, NInf => NInf
  | Fin p, Fin q => norm (p + q)
  end.

Definition nsub (a b : num) : num := nadd a (nneg b).

(** The sign of a finite number, zero counted as positive. *)
Definition Qnonneg (q : Q) : bool := Qle_bool 0 q.
Definition inf_of_sign (pos : bool) : num := if pos then PInf else NInf.
Definition Qis_zero (q : Q) : bool := Qeq_bool q 0.

Definition nmul (a b : num) : num :=
  match a, b with
  | NaN, _ | _, NaN => NaN
  | Fin p, Fin q => norm (p * q)
  | Fin p, PInf | PInf, Fin p =>
      if Qis_zero p then NaN else inf_of_sign (Qnonneg p)
  | Fin p, NInf | NInf, Fin p =>
      if Qis_zero p then NaN else inf_of_sign (negb (Qnonneg p))
  | PInf, PInf | NInf, NInf => PInf
  | PInf, NInf | NInf, PInf => NInf
  end.

Definition ndiv (a b : num) : num :=
  match a, b with
  | NaN, _ | _, NaN => NaN
  | Fin p, Fin q =>
      if Qis_zero q
      then (if Qis_zero p then NaN else inf_of_sign (Qnonneg p))
      else norm (p / q)
  | Fin _, (PInf | NInf) => Fin 0
  | PInf, Fin q => inf_of_sign (Qnonneg q)
  | NInf, Fin q => inf_of_sign (negb (Qnonneg q))
  | (PInf | NInf), (PInf | NInf) => NaN
  end.

(** [a < b], [a <= b], [a > b], [a >= b] and [a === b] on numbers: every
    comparison with NaN is false. *)
Definition nlt (a b : num) : bool :=
  match a, b with
  | NaN, _ | _, NaN => false
  | _, NInf | PInf, _ => false
  | NInf, _ | _, PInf => true
  | Fin p, Fin q => Qlt_bool p q
  end.

Definition nle (a b : num) : bool :=
  match a, b with
  | NaN, _ | _, NaN => false
  | NInf, _ | _, PInf => true
  | _, NInf | PInf, _ => false
  | Fin p, Fin q => Qle_bool p q
  end.

Definition ngt (a b : num) : bool := nlt b a.
Definition nge (a b : num) : bool := nle b a.

Definition neqb (a b : num) : bool :=
  match a, b with
  | NInf, NInf | PInf, PInf => true
  | Fin p, Fin q => Qeq_bool p q
  | _, _ => false
  end.

Definition is_nan (a : num) : bool :=
  match a with NaN => true | _ => false end.

Definition is_finite (a : num) : bool :=
  match a with Fin _ => true | _ => false end.

(** [Math.max] and [Math.min]: NaN if either argument is. *)
Definition Math_max (a b : num) : num :=
  match a, b with
  | NaN, _ | _, NaN => NaN
  | _, _ => if nlt a b then b else a
  end.

Definition Math_min (a b : num) : num :=
  match a, b with
  | NaN, _ | _, NaN => NaN
  | _, _ => if nlt b a then b else a
  end.

(** [mumath/clamp] on numbers:
    [max > min ? Math.max(Math.min(a,max),min) : Math.max(Math.min(a,min),max)];
    bounds given in the wrong order are swapped. *)
Definition clamp (a lo hi : num) : num :=
  if ngt hi lo then Math_max (Math_min a hi) lo
  else Math_max (Math_min a lo) hi.

Close Scope Q_scope.

(** ** Values *)

(** The functions that [core.js] itself defines and stores in the axis
    prototypes, and the callbacks that come from elsewhere (presets, user
    options). *)
Inductive fn : Type :=
| FnStubCoords  (* defaults.getCoords *)
| FnStubRatio   (* defaults.getRatio *)
| FnXCoords     (* Grid.prototype.x.getCoords *)
| FnXRange      (* Grid.prototype.x.getRange *)
| FnXRatio      (* Grid.prototype.x.getRatio *)
| FnYCoords     (* Grid.prototype.y.getCoords *)
| FnYRange      (* Grid.prototype.y.getRange *)
| FnYRatio      (* Grid.prototype.y.getRatio *)
| FnUser (id : nat).

Inductive value : Type :=
| VUndef
| VNull
| VBool (b : bool)
| VNum (n : num)
| VStr (s : string)
| VArr (l : list value)
| VObj (o : gmap string value)
| VFun (f : fn).

Abbreviation obj := (gmap string value).

Definition fn_eqb (f g : fn) : bool :=
  match f, g with
  | FnStubCoords, FnStubCoords | FnStubRatio, FnStubRatio
  | FnXCoords, FnXCoords | FnXRange, FnXRange | FnXRatio, FnXRatio
  | FnYCoords, FnYCoords | FnYRange, FnYRange | FnYRatio, FnYRatio => true
  | FnUser i, FnUser j => Nat.eqb i j
  | _, _ => false
  end.

Definition vnum (q : Q) : value := VNum (Fin q).

(** The collaborators that are not part of [core.js]. *)
Record env : Type := {
  (* [Grid.types = require('./types')]: the table of named presets *)
  types : gmap string value;
  (* the callbacks behind [FnUser] ids *)
  user_fn : nat -> list value -> value;
  (* [color-alpha]: blend a colour with an alpha *)
  alpha : value -> value -> value;
  (* [parse-unit] and [to-px] *)
  parseUnit : value -> value;
  toPx : value -> value;
  (* the built-in [parseFloat] on a property name *)
  parseFloat : string -> num;
  (* the built-in number conversion of strings, arrays, objects, functions *)
  coerce : value -> num;
  (* the built-in string conversion of a value used as a property name *)
  key_of : value -> string
}.

Definition truthy (v : value) : bool :=
  match v with
  | VUndef | VNull => false
  | VBool b => b
  | VNum NaN => false
  | VNum (Fin q) => negb (Qis_zero q)
  | VNum _ => true
  | VStr s => negb (String.eqb s "")
  | VArr _ | VObj _ | VFun _ => true
  end.

(** [a || b] and [!a]. *)
Definition js_or (a b : value) : value := if truthy a then a else b.
Definition js_not (a : value) : value := VBool (negb (truthy a)).

(** [a == null]. *)
Definition is_nullish (v : value) : bool :=
  match v with VUndef | VNull => true | _ => false end.

Definition is_undefined (v : value) : bool :=
  match v with VUndef => true | _ => false end.

Definition is_number (v : value) : bool :=
  match v with VNum _ => true | _ => false end.

Definition is_function (v : value) : bool :=
  match v with VFun _ => true | _ => false end.

Definition is_array (v : value) : bool :=
  match v with VArr _ => true | _ => false end.

(** [is-plain-obj]. *)
Definition isObj (v : value) : bool :=
  match v with VObj _ => true | _ => false end.

(** [a === b]. *)
Definition strict_eq (a b : value) : bool :=
  match a, b with
  | VUndef, VUndef | VNull, VNull => true
  | VBool x, VBool y => Bool.eqb x y
  | VNum x, VNum y => neqb x y
  | VStr x, VStr y => String.eqb x y
  | VFun f, VFun g => fn_eqb f g
  | _, _ => false
  end.

Section WithEnv.

Variable E : env.

(** Number conversion of an operand. *)
Definition to_num (v : value) : num :=
  match v with
  | VUndef => NaN
  | VNull => Fin 0
  | VBool b => Fin (if b then 1 else 0)
  | VNum n => n
  | _ => coerce E v
  end.

(** The characters of a string as one-character strings. *)
Definition chars (s : string) : list value :=
  (fun c => VStr (String c EmptyString)) <$> String.list_ascii_of_string s.

(** The enumerable own properties that [for (key in v)] visits. *)
Definition indexed (l : list value) : obj :=
  list_to_map (imap (fun i v => (pretty i, v)) l).

Definition own_props (v : value) : obj :=
  match v with
  | VObj o => o
  | VArr l => indexed l
  | VStr s => indexed (chars s)
  | _ => ∅
  end.

(** [v.k] for a property name; reading from [undefined] or [null] throws. *)
Definition get (v : value) (k : string) : option value :=
  match v with
  | VUndef | VNull => None
  | VObj o => Some (default VUndef (o !! k))
  | VArr l =>
      Some (if String.eqb k "length" then vnum (inject_Z (Z.of_nat (length l)))
            else default VUndef (indexed l !! k))
  | VStr s =>
      Some (if String.eqb k "length"
            then vnum (inject_Z (Z.of_nat (String.length s)))
            else default VUndef (indexed (chars s) !! k))
  | _ => Some VUndef
  end.

(** [v[i]] for an index. *)
Definition get_idx (v : value) (i : nat) : option value := get v (pretty i).

(** A field of an object held by the grid. *)
Definition field (o : obj) (k : string) : value := default VUndef (o !! k).

(** [just-extend], shallow: every own property of each source in turn is
    written onto the target, later writes replacing earlier ones. *)
Definition extend (target : obj) (sources : list value) : obj :=
  foldl (fun acc s => own_props s ∪ acc) target sources.


(** *** Calling a function value *)

Definition arg (args : list value) (i : nat) : value := nth i args VUndef.

(** [state => state.viewport[i] * state.lines.scale], with [i = 2] for x and
    [i = 3] for y. *)
Definition getRange_body (i : nat) (args : list value) : option value :=
  let state := arg args 0 in
  vp ← get state "viewport";
  extent ← get_idx vp i;
  lines ← get state "lines";
  scale ← get lines "scale";
  Some (VNum (nmul (to_num extent) (to_num scale))).

(** [(value, state) => (value - state.offset) / state.range] *)
Definition getRatio_x_body (args : list value) : option value :=
  let v := arg args 0 in
  let state := arg args 1 in
  offset ← get state "offset";
  range ← get state "range";
  Some (VNum (ndiv (nsub (to_num v) (to_num offset)) (to_num range))).

(** [(value, state) => 1 - (value - state.offset) / state.range] *)
Definition getRatio_y_body (args : list value) : option value :=
  let v := arg args 0 in
  let state := arg args 1 in
  offset ← get state "offset";
  range ← get state "range";
  Some (VNum (nsub (Fin 1)
                (ndiv (nsub (to_num v) (to_num offset)) (to_num range)))).

(** The functions other than the two [getCoords]. *)
Definition call_leaf (f : fn) (args : list value) : option value :=
  match f with
  | FnStubCoords => Some (VArr [vnum 0; vnum 0; vnum 0; vnum 0])
  | FnStubRatio => Some (vnum 0)
  | FnXRange => getRange_body 2 args
  | FnYRange => getRange_body 3 args
  | FnXRatio => getRatio_x_body args
  | FnYRatio => getRatio_y_body args
  | FnUser id => Some (user_fn E id args)
  | FnXCoords | FnYCoords => None
  end.

(** The elements [values[0]], ..., that [for (i = 0; i < values.length; i++)]
    visits.  A function value and an object of infinite [length] give
    [None]. *)
Definition loop_elems (values : value) : option (list value) :=
  match values with
  | VArr l => Some l
  | VStr s => Some (chars s)
  | VObj o =>
      match to_num (field o "length") with
      | Fin q => Some ((fun i => field o (pretty i)) <$> seq 0 (Z.to_nat (Qceiling q)))
      | PInf => None
      | _ => Some []
      end
  | VFun _ => None
  | _ => Some []
  end.

(** [getCoords] of x ([horizontal = false]: the segment (t,0)-(t,1)) and of y
    ([horizontal = true]: the segment (0,t)-(1,t)).  The call
    [state.lines.getRatio(values[i], state)] goes through [call_leaf]: a
    configuration whose [getRatio] is itself a [getCoords] is outside the
    model. *)
Definition getCoords_body (horizontal : bool) (args : list value) : option value :=
  let values := arg args 0 in
  let state := arg args 1 in
  if negb (truthy values) then Some (VArr [])
  else
    elems ← loop_elems values;
    segs ← mapM (fun v =>
                   lines ← get state "lines";
                   ratio ← get lines "getRatio";
                   match ratio with
                   | VFun g =>
                       t ← call_leaf g [v; state];
                       Some (if horizontal then [vnum 0; t; vnum 1; t]
                             else [t; vnum 0; t; vnum 1])
                   | _ => None
                   end) elems;
    Some (VArr (concat segs)).

Definition call (f : fn) (args : list value) : option value :=
  match f with
  | FnXCoords => getCoords_body false args
  | FnYCoords => getCoords_body true args
  | _ => call_leaf f args
  end.

(** [o.k(args)]: a method that is not a function throws. *)
Definition call_method (o : obj) (k : string) (args : list value) : option value :=
  match field o k with
  | VFun f => call f args
  | _ => None
  end.

(** *** The grid *)

(** A [Grid] instance: the four axis configurations, the viewport supplied
    by the component base class and the rendering state [{x, y}]. *)
Record Grid : Type := {
  this_x : obj;
  this_y : obj;
  this_r : obj;
  this_a : obj;
  this_viewport : list value;
  this_state : obj
}.

(** What a callback can read through [state.grid].  The source stores the
    instance itself there; values are trees, so the embedding stores the axis
    configurations and the viewport as they are at the time of the call. *)
Definition grid_value (g : Grid) : value :=
  VObj (<["x" := VObj (this_x g)]> (<["y" := VObj (this_y g)]>
       (<["r" := VObj (this_r g)]> (<["a" := VObj (this_a g)]>
       (<["viewport" := VArr (this_viewport g)]> ∅))))).

(** [typeof c === 'number' ? alpha(color, c) : c || color] *)
Definition resolve_color (lines : obj) (k : string) : value :=
  let c := field lines k in
  if is_number c then alpha E (field lines "color") c
  else js_or c (field lines "color").

(** [Array(n).fill(v)] for a literal [n]. *)
Definition filled (n : nat) (v : value) : value := VArr (replicate n v).

(** [Array(len).fill(null)]: a numeric [len] must be an array length, any
    other [len] becomes the single element of the array. *)
Definition Array_fill_null (len : value) : option value :=
  match len with
  | VNum (Fin q) =>
      if Qle_bool 0 q && Qlt_bool q (inject_Z (2 ^ 32)) && Pos.eqb (Qden (Qred q)) 1
      then Some (filled (Z.to_nat (Qnum (Qred q))) VNull)
      else None
  | VNum _ => None
  | _ => Some (filled 1 VNull)
  end.

(** [Array(values.length).fill(null)]; the [length] of a function value is
    not modelled. *)
Definition null_labels (values : value) : option value :=
  match values with
  | VFun _ => None
  | _ => len ← get values "length"; Array_fill_null len
  end.

(** [values.indexOf(v) >= 0] on an array. *)
Definition includes (values : list value) (v : value) : bool :=
  existsb (fun w => strict_eq w v) values.

(** Whether [v.filter] can be called: arrays have the method, a plain object
    may carry its own; numbers, strings, booleans and function values have
    none, and reading it from [undefined] or [null] throws. *)
Definition has_filter (v : value) : bool :=
  match v with
  | VArr _ => true
  | VObj o => is_function (field o "filter")
  | _ => false
  end.

(** [generated.filter(v => values.indexOf(v) >= 0)] for an array
    [generated].  The call throws when [generated] has no [filter]
    ([has_filter]); an object that carries its own [filter] is one of the
    inputs left out (the callback it would be given is not a value of the
    embedding), and gives [None] as well.  [values.indexOf] is only looked
    up when the callback runs; it exists on arrays (strings, and objects
    carrying their own [indexOf], are not modelled). *)
Definition filter_present (values generated : value) : option value :=
  match generated with
  | VArr l =>
      match values, l with
      | VArr vs, _ => Some (VArr (List.filter (includes vs) l))
      | _, [] => Some (VArr [])
      | _, _ => None
      end
  | _ => None
  end.

(** The array index that a property name denotes, if any: the canonical
    decimal numeral of a number below [2^32 - 1]. *)
Definition digit (c : Ascii.ascii) : option N :=
  let n := N.of_nat (Ascii.nat_of_ascii c) in
  if (48 <=? n)%N && (n <=? 57)%N then Some (n - 48)%N else None.

Definition index_of (s : string) : option N :=
  n ← foldl (fun acc c => a ← acc; d ← digit c; Some (10 * a + d)%N) (Some 0%N)
        (String.list_ascii_of_string s);
  if String.eqb (pretty n) s && (n <? 2 ^ 32 - 1)%N then Some n else None.

Definition is_index (kv : string * value) : Prop := is_Some (index_of kv.1).

Definition index_le (kv1 kv2 : string * value) : Prop :=
  (default 0 (index_of kv1.1) <= default 0 (index_of kv2.1))%N.

#[global] Instance is_index_dec (kv : string * value) : Decision (is_index kv) :=
  decide (is_Some (index_of kv.1)).

#[global] Instance index_le_dec (kv1 kv2 : string * value) : Decision (index_le kv1 kv2) :=
  decide (default 0 (index_of kv1.1) <= default 0 (index_of kv2.1))%N.

(** The properties of a plain object in the order in which
    [for (key in o)] visits them: the array indices in ascending numeric
    order, then the other names.  The source visits those other names in the
    order of their creation, which a finite map does not keep; here they
    come in the order of [map_to_list]. *)
Definition for_in (o : obj) : list (string * value) :=
  let kvs := map_to_list o in
  merge_sort index_le (filter is_index kvs) ++ filter (fun kv => ~ is_index kv) kvs.

(** The [for (let value in labels)] loop of the mapping case: each label is
    pushed onto [state.labels] and each parsed key onto [state.values], in the
    order of [for_in].  Pushing onto [values] needs an array. *)
Definition push_mapping (labels : obj) (values nulls : value) : option (value * value) :=
  let kvs := for_in labels in
  match nulls with
  | VArr ns =>
      match kvs, values with
      | [], _ => Some (values, nulls)
      | _, VArr vs =>
          Some (VArr (vs ++ ((fun kv => VNum (parseFloat E kv.1)) <$> kvs)),
                VArr (ns ++ (snd <$> kvs)))
      | _, _ => None
      end
  | _ => None
  end.

(** [lines.offset - state.range * clamp(lines.origin, 0, 1)]: the offset
    moved by the origin anchor, before it is clamped into the limits. *)
Definition anchored_offset (lines : obj) (range : value) : num :=
  nsub (to_num (field lines "offset"))
       (nmul (to_num range) (clamp (to_num (field lines "origin")) (Fin 0) (Fin 1))).

(** Lines 166-169: [state.offset]. *)
Definition resolve_offset (lines : obj) (range : value) : num :=
  clamp (anchored_offset lines range)
        (Math_max (to_num (field lines "min")) (nadd (nneg (Fin MAX_VALUE)) (Fin 1)))
        (nsub (Math_min (to_num (field lines "max")) (Fin MAX_VALUE)) (to_num range)).

(** Lines 158-162: the state literal [{lines, viewport: vp, grid: this}]. *)
Definition state_literal (grid : value) (lines : obj) (vp : list value) : obj :=
  <["grid" := grid]> (<["viewport" := VArr vp]> (<["lines" := VObj lines]> ∅)).

(** Lines 165-180: the real offset and range, and the style. *)
Definition resolve_style (lines : obj) (range : value) (state : obj) : obj :=
  (* calculate real offset/range *)
  let state := <["range" := range]> state in
  let state := <["offset" := VNum (resolve_offset lines range)]> state in
  (* calc style *)
  let state := <["axisColor" := resolve_color lines "axisColor"]> state in
  let state := <["axisWidth" := js_or (field lines "axisWidth") (field lines "lineWidth")]> state in
  let state := <["lineWidth" := field lines "lineWidth"]> state in
  let state := <["tickAlign" := field lines "tickAlign"]> state in
  let state := <["labelColor" := field state "color"]> state in
  let state := <["lineColor" := resolve_color lines "lineColor"]> state in
  let state := <["sublineColor" := resolve_color lines "sublineColor"]> state in
  let state := <["tick" := field lines "tick"]> state in
  <["subtick" := field lines "subtick"]> state.

(** Lines 182-191: get padding. *)
Definition resolve_padding (lines state : obj) : option value :=
  let p := field lines "padding" in
  if is_number p then Some (filled 4 p)
  else match p with
       | VFun f => call f [VObj state]
       | _ => Some p
       end.

(** Lines 193-200: calc font. *)
Definition resolve_fontSize (lines : obj) : option value :=
  let fs := field lines "fontSize" in
  if is_number fs then Some fs
  else
    let units := parseUnit E fs in
    magnitude ← get_idx units 0;
    unit ← get_idx units 1;
    Some (VNum (nmul (to_num magnitude) (to_num (toPx E unit)))).

(** Lines 203-210: get lines stops. *)
Definition resolve_values (lines state : obj) : option value :=
  match field lines "lines" with
  | VFun f => call f [VObj state]
  | l => Some (js_or l (VArr []))
  end.

(** Lines 213-229: the subline values, and the state as the block leaves it
    (the automatic case writes [state.scale]). *)
Definition resolve_subvalues (lines : obj) (values : value) (state : obj)
  : option (value * obj) :=
  match field lines "sublines" with
  | VFun f => sv ← call f [VObj state]; Some (sv, state)
  | sublines =>
      match field lines "lines" with
      | VFun f =>
          (* draw sublines only when they are not disabled *)
          if strict_eq sublines (VBool true) || is_undefined sublines then
            let scale := field state "scale" in
            let state := <["scale" := VNum (ndiv (to_num scale) (Fin 3))]> state in
            generated ← call f [VObj state];
            sv ← filter_present values generated;
            Some (sv, <["scale" := scale]> state)
          else Some (sublines, state)
      | _ => Some (sublines, state)
      end
  end.

(** Lines 232-243: calc labels. *)
Definition resolve_labels (lines : obj) (values : value) (state : obj) : option value :=
  let l := field lines "labels" in
  if strict_eq l (VBool true) then Some values
  else match l with
       | VFun f => call f [VObj state]
       | VArr _ => Some l
       | _ => null_labels values
       end.

(** Lines 246-253: convert hashmap ticks/labels to values.  Returns the
    state and the configuration [lines] as the block leaves it: the pushes
    onto [state.values] also reach a literal [lines.lines] array, which is
    the same array. *)
Definition convert_mapping (lines : obj) (values labels : value) (state : obj)
  : option (obj * obj) :=
  match labels with
  | VObj mapping =>
      nulls ← null_labels values;
      '(values', labels') ← push_mapping mapping values nulls;
      let lines' :=
        match field lines "lines" with
        | VArr _ => <["lines" := values']> lines
        | _ => lines
        end in
      Some (<["lines" := VObj lines']> (<["values" := values']> (<["labels" := labels']> state)),
            lines')
  | _ => Some (state, lines)
  end.

(** [Grid.prototype.calcLines(lines, vp)], called on the instance [grid]. *)
Definition calcLines (grid : value) (lines : obj) (vp : list value) : option (obj * obj) :=
  let state := state_literal grid lines vp in
  range ← call_method lines "getRange" [VObj state];
  let state := resolve_style lines range state in
  padding ← resolve_padding lines state;
  let state := <["padding" := padding]> state in
  fontSize ← resolve_fontSize lines;
  let state := <["fontSize" := fontSize]> state in
  let state := <["fontFamily" := js_or (field lines "fontFamily") (VStr "sans-serif")]> state in
  values ← resolve_values lines state;
  let state := <["values" := values]> state in
  '(subvalues, state) ← resolve_subvalues lines values state;
  let state := <["subvalues" := subvalues]> state in
  labels ← resolve_labels lines values state;
  let state := <["labels" := labels]> state in
  convert_mapping lines values labels state.

(** *** Default values and the axis prototypes *)

(** The object literal of [Grid.prototype.defaults], before the [linear]
    preset is merged into it. *)
Definition defaults_literal : obj :=
  list_to_map [
    ("type", VStr "linear"); ("name", VStr ""); ("units", VStr "");
    (* visible range params *)
    ("min", VNum NInf); ("max", VNum PInf); ("offset", vnum 0);
    ("origin", vnum (1 # 2)); ("scale", vnum 1);
    ("minScale", vnum EPSILON); ("maxScale", vnum MAX_VALUE);
    ("zoom", VBool true); ("pan", VBool true);
    (* labels *)
    ("labels", VBool true); ("fontSize", VStr "10pt");
    ("fontFamily", VStr "sans-serif"); ("padding", vnum 0);
    ("color", VStr "rgb(0,0,0,1)");
    (* lines params *)
    ("lines", VBool true); ("sublines", VBool true); ("tick", vnum 8);
    ("subtick", vnum 0); ("tickAlign", vnum (1 # 2)); ("lineWidth", vnum 1);
    ("distance", vnum 120); ("style", VStr "lines");
    ("lineColor", vnum (4 # 10)); ("sublineColor", vnum (1 # 10));
    (* axis params *)
    ("axis", VBool true); ("axisOrigin", vnum 0); ("axisWidth", vnum 2);
    ("axisColor", vnum 1);
    (* stub methods *)
    ("getCoords", VFun FnStubCoords); ("getRatio", VFun FnStubRatio)
  ].

(** [Grid.types[name]]; names that are not own keys of the table give
    nothing to merge. *)
Definition preset (name : value) : value :=
  default VUndef (types E !! (match name with VStr s => s | _ => key_of E name end)).

Definition defaults : obj := extend defaults_literal [preset (VStr "linear")].

Definition proto_x : obj :=
  extend ∅ [VObj defaults;
            VObj (list_to_map [("orientation", VStr "x"); ("getCoords", VFun FnXCoords);
                               ("getRange", VFun FnXRange); ("getRatio", VFun FnXRatio)])].

Definition proto_y : obj :=
  extend ∅ [VObj defaults;
            VObj (list_to_map [("orientation", VStr "y"); ("getCoords", VFun FnYCoords);
                               ("getRange", VFun FnYRange); ("getRatio", VFun FnYRatio)])].

Definition proto_r : obj :=
  extend ∅ [VObj defaults; VObj {[ "orientation" := VStr "r" ]}].

Definition proto_a : obj :=
  extend ∅ [VObj defaults; VObj {[ "orientation" := VStr "a" ]}].

(** *** [Grid.prototype.update] *)

(** [if (opts.k && opts.k.type) extend(opts.k, Grid.types[opts.k.type])]:
    the fragment as the statement leaves it. *)
Definition take_type (fragment : value) : value :=
  match fragment with
  | VObj o =>
      if truthy (field o "type") then VObj (extend o [preset (field o "type")])
      else fragment
  | _ => fragment
  end.

(** [if (opts.k) extend(this.k, opts.k)] *)
Definition extend_props (axis : obj) (fragment : value) : obj :=
  if truthy fragment then extend axis [fragment] else axis.

(** Lines 116-128: the options are merged into the four configurations. *)
Definition merge_opts (g : Grid) (opts : value) : Grid :=
  match (if truthy opts then get opts "x" else None),
        (if truthy opts then get opts "y" else None),
        (if truthy opts then get opts "r" else None),
        (if truthy opts then get opts "a" else None) with
  | Some ox, Some oy, Some or, Some oa =>
      {| this_x := extend_props (this_x g) (take_type ox);
         this_y := extend_props (this_y g) (take_type oy);
         this_r := extend_props (this_r g) (take_type or);
         this_a := extend_props (this_a g) (take_type oa);
         this_viewport := this_viewport g;
         this_state := this_state g |}
  | _, _, _, _ => g
  end.

(** Lines 131-139 for one axis: the stored offset is brought inside the
    limits unless the axis is disabled. *)
Definition normalize (axis : obj) (vp : list value) : option obj :=
  if truthy (field axis "disabled") then Some axis
  else
    range ← call_method axis "getRange"
              [VObj (<["viewport" := VArr vp]> {[ "lines" := VObj axis ]})];
    Some (<["offset" :=
              VNum (clamp (to_num (field axis "offset")) (to_num (field axis "min"))
                          (Math_max (nsub (to_num (field axis "max")) (to_num range))
                                    (to_num (field axis "min"))))]> axis).

Definition set_x (g : Grid) (o : obj) : Grid :=
  {| this_x := o; this_y := this_y g; this_r := this_r g; this_a := this_a g;
     this_viewport := this_viewport g; this_state := this_state g |}.

Definition set_y (g : Grid) (o : obj) : Grid :=
  {| this_x := this_x g; this_y := o; this_r := this_r g; this_a := this_a g;
     this_viewport := this_viewport g; this_state := this_state g |}.

Definition set_state (g : Grid) (k : string) (st : obj) : Grid :=
  {| this_x := this_x g; this_y := this_y g; this_r := this_r g; this_a := this_a g;
     this_viewport := this_viewport g;
     this_state := <[k := VObj st]> (this_state g) |}.

(** [Grid.prototype.update(opts)].  The two states also refer to each other
    through [opposite]; the embedding keeps them side by side in
    [this_state] instead.  Emitting ['update'] and rendering leave the
    instance unchanged. *)
Definition update (g : Grid) (opts : value) : option Grid :=
  let g := merge_opts g opts in
  (* normalize, make sure range/offset are not off the limits *)
  x ← normalize (this_x g) (this_viewport g);
  let g := set_x g x in
  y ← normalize (this_y g) (this_viewport g);
  let g := set_y g y in
  (* recalc state *)
  '(sx, x) ← calcLines (grid_value g) (this_x g) (this_viewport g);
  let g := set_state (set_x g x) "x" sx in
  '(sy, y) ← calcLines (grid_value g) (this_y g) (this_viewport g);
  Some (set_state (set_y g y) "y" sy).

(** The state of an axis after an update. *)
Definition state_of (g : Grid) (k : string) : obj :=
  match field (this_state g) k with
  | VObj st => st
  | _ => ∅
  end.

(** *** The constructor *)

(** [this.k = extend({disabled: true}, Grid.prototype.k, opts.k)] followed by
    [if (opts.k !== undefined) this.k.disabled = !opts.k]. *)
Definition create_axis (proto : obj) (opt : value) : obj :=
  let axis := extend {[ "disabled" := VBool true ]} [VObj proto; opt] in
  if is_undefined opt then axis
  else <["disabled" := js_not opt]> axis.

(** [opts.r == null && opts.a == null && opts.y == null && opts.x == null] *)
Definition all_omitted (opts : obj) : bool :=
  is_nullish (field opts "r") && is_nullish (field opts "a")
  && is_nullish (field opts "y") && is_nullish (field opts "x").

(** Lines 44-47: set default coords as xy. *)
Definition default_coords (opts : obj) : obj :=
  if all_omitted opts
  then <["y" := VBool true]> (<["x" := VBool true]> opts)
  else opts.

(** [new Grid(opts)] in a browser, for an options object [opts]; [vp] is the
    viewport that the component base class installs. *)
Definition Grid_new (vp : list value) (opts : obj) : option Grid :=
  let opts := default_coords opts in
  update {| this_x := create_axis proto_x (field opts "x");
            this_y := create_axis proto_y (field opts "y");
            this_r := create_axis proto_r (field opts "r");
            this_a := create_axis proto_a (field opts "a");
            this_viewport := vp;
            this_state := ∅ |}
         (VObj opts).

(** *** The pan/zoom handler *)

(** The event of [pan-zoom]: pointer deltas, wheel delta, pointer position. *)
Record event : Type := {
  e_dx : num; e_dy : num; e_dz : num; e_x : num; e_y : num
}.

Definition viewport_item (vp : list value) (i : nat) : num := to_num (nth i vp VUndef).

(** [clamp(-e.dz, -height*.75, height*.75)/height].  The products and the
    quotient are exact here; the source rounds each of them. *)
Definition zoom_of (e : event) (height : num) : num :=
  ndiv (clamp (nneg (e_dz e))
              (nmul (nneg height) (Fin (3 # 4)))
              (nmul height (Fin (3 # 4))))
       height.

(** [{offset: this.k.offset, scale: this.k.scale}] *)
Definition fragment_of (axis : obj) : obj :=
  <["scale" := field axis "scale"]> {[ "offset" := field axis "offset" ]}.

(** Lines 83-85: [if (this.x.pan) x.offset -= this.x.scale * e.dx]. *)
Definition pan_x (axis : obj) (e : event) (x : obj) : obj :=
  if truthy (field axis "pan")
  then <["offset" := VNum (nsub (to_num (field x "offset"))
                                (nmul (to_num (field axis "scale")) (e_dx e)))]> x
  else x.

(** Lines 96-98: [if (this.y.pan) y.offset += y.scale * e.dy]. *)
Definition pan_y (axis : obj) (e : event) (y : obj) : obj :=
  if truthy (field axis "pan")
  then <["offset" := VNum (nadd (to_num (field y "offset"))
                                (nmul (to_num (field y "scale")) (e_dy e)))]> y
  else y.

(** Lines 86-92 and 99-105: the scale is multiplied by [1 - zoom] and
    clamped, and the offset is moved by [extent * (scale - prevScale) * t],
    [t] being the focal fraction of the axis. *)
Definition zoom_axis (axis : obj) (extent zoom t : num) (k : obj) : obj :=
  if strict_eq (field axis "zoom") (VBool false) then k
  else
    let prevScale := to_num (field k "scale") in
    let scale := nmul prevScale (nsub (Fin 1) zoom) in
    let scale := clamp scale (to_num (field axis "minScale")) (to_num (field axis "maxScale")) in
    <["offset" := VNum (nsub (to_num (field k "offset"))
                             (nmul (nmul extent (nsub scale prevScale)) t))]>
      (<["scale" := VNum scale]> k).

(** The fragment that the handler builds for x. *)
Definition transform_x (axis : obj) (vp : list value) (e : event) : obj :=
  let left := viewport_item vp 0 in
  let width := viewport_item vp 2 in
  let height := viewport_item vp 3 in
  let zoom := zoom_of e height in
  let x := fragment_of axis in
  if truthy (field axis "disabled") then x
  else
    let oX := to_num (js_or (field axis "origin") (vnum 0)) in
    let x := pan_x axis e x in
    let tx := nsub (ndiv (nsub (e_x e) left) width) oX in
    zoom_axis axis width zoom tx x.

(** The fragment that the handler builds for y. *)
Definition transform_y (axis : obj) (vp : list value) (e : event) : obj :=
  let top := viewport_item vp 1 in
  let height := viewport_item vp 3 in
  let zoom := zoom_of e height in
  let y := fragment_of axis in
  if truthy (field axis "disabled") then y
  else
    let oY := to_num (js_or (field axis "origin") (vnum 0)) in
    let y := pan_y axis e y in
    let ty := nsub oY (ndiv (nsub (e_y e) top) height) in
    zoom_axis axis height zoom ty y.

(** The callback given to [panzoom]: [this.update({x, y})]. *)
Definition on_panzoom (g : Grid) (e : event) : option Grid :=
  update g (VObj (<["x" := VObj (transform_x (this_x g) (this_viewport g) e)]>
                  {[ "y" := VObj (transform_y (this_y g) (this_viewport g) e) ]})).

End WithEnv.

(** ** The four axes by name *)

Inductive axis_id : Type := AX | AY | AR | AA.

Definition axis_key (k : axis_id) : string :=
  match k with AX => "x" | AY => "y" | AR => "r" | AA => "a" end.

Definition axis_of (g : Grid) (k : axis_id) : obj :=
  match k with
  | AX => this_x g
  | AY => this_y g
  | AR => this_r g
  | AA => this_a g
  end.

Definition proto_of (E : env) (k : axis_id) : obj :=
  match k with
  | AX => proto_x E
  | AY => proto_y E
  | AR => proto_r E
  | AA => proto_a E
  end.

(** ** A concrete environment

    Used to run the definitions on explicit inputs.  The [linear] preset
    carries a tick generator that returns the ticks 0, 50, 100 and, when it
    is invoked with a [scale] on the state (the subline pass), the finer
    0, 25, 50, 75, 100; it also sets [distance] to 60. *)

Definition sample_ticks (args : list value) : value :=
  match nth 0 args VUndef with
  | VObj st =>
      match st !! "scale" with
      | Some _ => VArr [vnum 0; vnum 25; vnum 50; vnum 75; vnum 100]
      | None => VArr [vnum 0; vnum 50; vnum 100]
      end
  | _ => VArr []
  end.

(** Decimal digits of a property name; anything else parses to NaN. *)
Definition digit_of (c : Ascii.ascii) : option Z :=
  let n := Z.of_nat (Ascii.nat_of_ascii c) in
  if (48 <=? n)%Z && (n <=? 57)%Z then Some (n - 48)%Z else None.

Definition sample_parseFloat (s : string) : num :=
  match String.list_ascii_of_string s with
  | [] => NaN
  | cs =>
      match foldl (fun acc c => a ← acc; d ← digit_of c; Some (10 * a + d)%Z) (Some 0%Z) cs with
      | Some z => Fin (inject_Z z)
      | None => NaN
      end
  end.

Definition sample_env : env := {|
  types := {[ "linear" := VObj (<["lines" := VFun (FnUser 0)]> {[ "distance" := vnum 60 ]}) ]};
  user_fn := fun id args => match id with O => sample_ticks args | _ => VUndef end;
  alpha := fun c a => VArr [c; a];
  parseUnit := fun _ => VArr [vnum 10; VStr "pt"];
  toPx := fun _ => vnum (4 # 3);
  parseFloat := sample_parseFloat;
  coerce := fun _ => NaN;
  key_of := fun _ => ""
|}.

(** A 100 by 100 viewport at the origin. *)
Definition vp100 : list value := [vnum 0; vnum 0; vnum 100; vnum 100].

(** The x configuration of the prototype, with explicit ticks 1, 2, 3 and a
    single explicit label. *)
Definition cfg_one_label : obj :=
  <["labels" := VArr [VStr "a"]]>
    (<["lines" := VArr [vnum 1; vnum 2; vnum 3]]> (proto_x sample_env)).

(** The x configuration of the prototype with labels switched off. *)
Definition cfg_no_labels : obj :=
  <["labels" := VBool false]> (proto_x sample_env).

(** The state and the configuration of a [calcLines] result, empty if the
    call failed. *)
Definition state_or_empty (r : option (obj * obj)) : obj := default ∅ (fst <$> r).
Definition config_or_empty (r : option (obj * obj)) : obj := default ∅ (snd <$> r).

Definition succeeds {A : Type} (r : option A) : bool :=
  match r with Some _ => true | None => false end.

(** The grid of a constructor or update result, and an empty grid if the
    call failed. *)
Definition empty_grid : Grid :=
  {| this_x := ∅; this_y := ∅; this_r := ∅; this_a := ∅;
     this_viewport := []; this_state := ∅ |}.

Definition grid_or_empty (r : option Grid) : Grid := default empty_grid r.

(** [new Grid({})] and [new Grid({y: true})] on the 100 by 100 viewport. *)
Definition grid_default : Grid := grid_or_empty (Grid_new sample_env vp100 ∅).

Definition opts_y_only : obj := {[ "y" := VBool true ]}.

Definition grid_y_only : Grid := grid_or_empty (Grid_new sample_env vp100 opts_y_only).

(** [{x: {type: 'linear', distance: 200}}]: a fragment that names the
    [linear] preset and sets [distance] itself. *)
Definition fragment_typed : obj :=
  <["type" := VStr "linear"]> {[ "distance" := vnum 200 ]}.

Definition opts_typed : obj := {[ "x" := VObj fragment_typed ]}.

Definition grid_typed : Grid :=
  grid_or_empty (update sample_env grid_default (VObj opts_typed)).

(** [{x: {type: 'linear', lines: [1, 2, 3]}}]: the fragment sets literal
    ticks, the [linear] preset carries a tick generator. *)
Definition fragment_typed_lines : obj :=
  <["type" := VStr "linear"]> {[ "lines" := VArr [vnum 1; vnum 2; vnum 3] ]}.

Definition opts_typed_lines : obj := {[ "x" := VObj fragment_typed_lines ]}.

Definition grid_typed_lines : Grid :=
  grid_or_empty (update sample_env grid_default (VObj opts_typed_lines)).


(** [update({x: {offset: 500, min: 0, max: 300}})] on the default grid: the
    range is 100, the stored offset 200 and the state offset 150. *)
Definition opts_limits : obj :=
  {[ "x" := VObj (<["offset" := vnum 500]> (<["min" := vnum 0]> {[ "max" := vnum 300 ]})) ]}.

Definition grid_limits : Grid :=
  grid_or_empty (update sample_env grid_default (VObj opts_limits)).



(** An enabled y configuration with zoom switched off, and a drag by 3
    pixels to the right and 2 pixels down. *)
Definition cfg_pan_only : obj :=
  <["zoom" := VBool false]> (<["disabled" := VBool false]> (proto_y sample_env)).

Definition drag_3_2 : event :=
  {| e_dx := Fin 3; e_dy := Fin 2; e_dz := Fin 0; e_x := Fin 50; e_y := Fin 50 |}.

(** An enabled y configuration with the defaults of the prototype. *)
Definition cfg_enabled_y : obj := <["disabled" := VBool false]> (proto_y sample_env).

(** A wheel event at the centre of the viewport: no drag, [dz = -10]. *)
Definition wheel_up : event :=
  {| e_dx := Fin 0; e_dy := Fin 0; e_dz := Fin (-10); e_x := Fin 50; e_y := Fin 50 |}.

Definition grid_zoomed : Grid := grid_or_empty (on_panzoom sample_env grid_default wheel_up).

Definition grid_refreshed : Grid := grid_or_empty (update sample_env grid_default VUndef).

(** [new Grid({y: {origin: 0}})], before and after the wheel event. *)
Definition opts_origin0 : obj := {[ "y" := VObj {[ "origin" := vnum 0 ]} ]}.

Definition grid_origin0 : Grid := grid_or_empty (Grid_new sample_env vp100 opts_origin0).

Definition grid_origin0_zoomed : Grid :=
  grid_or_empty (on_panzoom sample_env grid_origin0 wheel_up).

(** [new Grid({x: {scale: Number.MAX_VALUE}})] on a viewport 2 pixels wide. *)
Definition vp2 : list value := [vnum 0; vnum 0; vnum 2; vnum 2].

Definition opts_max_scale : obj := {[ "x" := VObj {[ "scale" := vnum MAX_VALUE ]} ]}.

Definition grid_overflow : Grid := grid_or_empty (Grid_new sample_env vp2 opts_max_scale).

(** [update({x: {scale: 2^-60}})] on the default grid, whose [minScale] is
    2^-52. *)
Definition opts_small_scale : obj := {[ "x" := VObj {[ "scale" := vnum (1 # 2 ^ 60) ]} ]}.

Definition grid_small_scale : Grid :=
  grid_or_empty (update sample_env grid_default (VObj opts_small_scale)).

(** [new Grid({x: {min: 0, max: 100, scale: 1, offset: 0, origin: 0}})] on a
    viewport 200 pixels wide. *)
Definition vp200 : list value := [vnum 0; vnum 0; vnum 200; vnum 100].

Definition opts_bounded : obj :=
  {[ "x" := VObj (list_to_map [("min", vnum 0); ("max", vnum 100); ("scale", vnum 1);
                               ("offset", vnum 0); ("origin", vnum 0)]) ]}.

Definition grid_bounded : Grid := grid_or_empty (Grid_new sample_env vp200 opts_bounded).

(** [new Grid({x: {origin: 0}})], before and after the wheel event. *)
Definition opts_x_origin0 : obj := {[ "x" := VObj {[ "origin" := vnum 0 ]} ]}.

Definition grid_x_origin0 : Grid := grid_or_empty (Grid_new sample_env vp100 opts_x_origin0).

Definition grid_x_origin0_zoomed : Grid :=
  grid_or_empty (on_panzoom sample_env grid_x_origin0 wheel_up).

(** ** Further concrete inputs *)

(** The concrete environment with three more callbacks: a label function
    that returns the mapping [{7: 'seven'}], one that returns
    [{2: 'two', 10: 'ten'}], and a tick generator that returns a number
    instead of a sequence. *)
Definition sample_mapping : obj := {[ "7" := VStr "seven" ]}.

(** The mapping [{2: 'two', 10: 'ten'}]. *)
Definition mapping_2_10 : obj := <["2" := VStr "two"]> {[ "10" := VStr "ten" ]}.

Definition sample_env2 : env := {|
  types := types sample_env;
  user_fn := fun id args =>
    match id with
    | 0 => sample_ticks args
    | 1 => VObj sample_mapping
    | 3 => VObj mapping_2_10
    | _ => vnum 5
    end;
  alpha := alpha sample_env;
  parseUnit := parseUnit sample_env;
  toPx := toPx sample_env;
  parseFloat := parseFloat sample_env;
  coerce := coerce sample_env;
  key_of := key_of sample_env
|}.

(** The x configuration of the prototype with literal ticks 1, 2 and the
    mapping function as labels. *)
Definition cfg_mapping_fn : obj :=
  <["labels" := VFun (FnUser 1)]>
    (<["lines" := VArr [vnum 1; vnum 2]]> (proto_x sample_env2)).

(** The same ticks with a function that returns [{2: 'two', 10: 'ten'}] as
    labels. *)
Definition cfg_mapping_2_10 : obj :=
  <["labels" := VFun (FnUser 3)]>
    (<["lines" := VArr [vnum 1; vnum 2]]> (proto_x sample_env2)).

(** The same ticks with the mapping given literally as labels. *)
Definition cfg_mapping_literal : obj :=
  <["labels" := VObj sample_mapping]>
    (<["lines" := VArr [vnum 1; vnum 2]]> (proto_x sample_env2)).

(** The x configuration of the prototype with the generator that returns a
    number. *)
Definition cfg_bad_generator : obj :=
  <["lines" := VFun (FnUser 2)]> (proto_x sample_env2).

(** The geometry functions that [core.js] gives to the x and y prototypes,
    and the viewport entry that their [getRange] reads. *)
Definition range_fn (k : axis_id) : fn :=
  match k with AX => FnXRange | _ => FnYRange end.

Definition ratio_fn (k : axis_id) : fn :=
  match k with AX => FnXRatio | _ => FnYRatio end.

Definition coords_fn (k : axis_id) : fn :=
  match k with AX => FnXCoords | _ => FnYCoords end.

Definition extent_index (k : axis_id) : nat :=
  match k with AX => 2 | _ => 3 end.

(** [update({x: {getRange: 5}})]: a geometry that is not a function. *)
Definition opts_bad_range : obj := {[ "x" := VObj {[ "getRange" := vnum 5 ]} ]}.

(** [new Grid({y: {zoom: false}})]. *)
Definition opts_no_zoom : obj := {[ "y" := VObj {[ "zoom" := VBool false ]} ]}.

Definition grid_no_zoom : Grid := grid_or_empty (Grid_new sample_env vp100 opts_no_zoom).

(** [new Grid({})] on a viewport of height zero. *)
Definition vp_flat : list value := [vnum 0; vnum 0; vnum 100; vnum 0].

Definition grid_flat : Grid := grid_or_empty (Grid_new sample_env vp_flat ∅).

(** [new Grid({x: {disabled: true}})]: an object, hence truthy, that asks
    for a disabled axis. *)
Definition opts_x_disabled : obj := {[ "x" := VObj {[ "disabled" := VBool true ]} ]}.

Definition grid_x_disabled : Grid :=
  grid_or_empty (Grid_new sample_env vp100 opts_x_disabled).

(** [update({x: {offset: 500, max: 300}})] on the default grid: the range is
    100, so the offset is beyond [max - range]. *)
Definition opts_far : obj :=
  {[ "x" := VObj (<["offset" := vnum 500]> {[ "max" := vnum 300 ]}) ]}.

Definition grid_far : Grid := grid_or_empty (update sample_env grid_default (VObj opts_far)).

(** A state with offset 10 and range 100, alone and with the x or the y
    configuration of the prototype as its [lines]. *)
Definition state_10_100 : obj := <["offset" := vnum 10]> {[ "range" := vnum 100 ]}.

Definition state_10_100_x : obj := <["lines" := VObj (proto_x sample_env)]> state_10_100.

Definition state_10_100_y : obj := <["lines" := VObj (proto_y sample_env)]> state_10_100.

(** [update({x: false})]. *)
Definition opts_x_false : obj := {[ "x" := VBool false ]}.

(** A state with offset 10 and a range of zero. *)
Definition state_10_0 : obj := <["offset" := vnum 10]> {[ "range" := vnum 0 ]}.

(** ** Order on numbers *)

Section NumOrder.
Local Open Scope Q_scope.

Lemma Qle_bool_reflect (a b : Q) : reflect (a <= b) (Qle_bool a b).
Proof. apply iff_reflect. symmetry. apply Qle_bool_iff. Qed.

Lemma Qlt_bool_reflect (a b : Q) : reflect (a < b) (Qlt_bool a b).
Proof.
  unfold Qlt_bool. destruct (Qle_bool_reflect b a); constructor; lra.
Qed.

Ltac num_step :=
  match goal with
  | |- context [Qle_bool ?a ?b] => destruct (Qle_bool_reflect a b)
  | |- context [Qlt_bool ?a ?b] => destruct (Qlt_bool_reflect a b)
  | H : context [Qle_bool ?a ?b] |- _ => destruct (Qle_bool_reflect a b)
  | H : context [Qlt_bool ?a ?b] |- _ => destruct (Qlt_bool_reflect a b)
  end.

Ltac num_order :=
  repeat (cbn [nle nlt ngt nge Math_max Math_min is_nan negb] in *; try num_step);
  repeat split; try done; try lra.

Lemma nle_trans a b c : nle a b = true -> nle b c = true -> nle a c = true.
Proof. destruct a, b, c; intros; num_order. Qed.

Lemma clamp_bounds a lo hi :
  is_nan a = false -> nle lo hi = true ->
  nle lo (clamp a lo hi) = true /\ nle (clamp a lo hi) hi = true.
Proof.
  unfold clamp. destruct a, lo, hi; intros; num_order.
Qed.

Lemma nle_not_nan_l a b : nle a b = true -> is_nan a = false.
Proof. by destruct a, b. Qed.

Lemma nle_not_nan_r a b : nle a b = true -> is_nan b = false.
Proof. by destruct a, b. Qed.

Lemma Math_max_ge_l a b : is_nan (Math_max a b) = false -> nle a (Math_max a b) = true.
Proof. destruct a, b; intros; num_order. Qed.

Lemma Math_min_le_l a b : is_nan (Math_min a b) = false -> nle (Math_min a b) a = true.
Proof. destruct a, b; intros; num_order. Qed.

Lemma norm_mono p q : p <= q -> nle (norm p) (norm q) = true.
Proof.
  intros H. unfold norm.
  destruct (Qlt_bool_reflect MAX_VALUE p), (Qlt_bool_reflect MAX_VALUE q),
    (Qlt_bool_reflect p (- MAX_VALUE)), (Qlt_bool_reflect q (- MAX_VALUE));
    cbn; try done; try lra.
  all: destruct (Qle_bool_reflect (Qred p) (Qred q)) as [|Hn]; try done.
  all: rewrite !Qred_correct in Hn; lra.
Qed.

Lemma norm_cases q : norm q = PInf \/ norm q = NInf \/ norm q = Fin (Qred q).
Proof.
  unfold norm. destruct (Qlt_bool MAX_VALUE q), (Qlt_bool q (- MAX_VALUE)); auto.
Qed.

Lemma nsub_mono a b r :
  nle a b = true -> nle (nsub a (Fin r)) (nsub b (Fin r)) = true.
Proof.
  unfold nsub. cbn [nneg].
  destruct a as [| | |p], b as [| | |q]; cbn [nle nadd]; try done; intros H.
  - by destruct (norm_cases (q + Qred (- r))) as [-> | [-> | ->]].
  - by destruct (norm_cases (p + Qred (- r))) as [-> | [-> | ->]].
  - apply norm_mono. destruct (Qle_bool_reflect p q); [lra|done].
Qed.
End NumOrder.

(** ** Finite results have finite operands *)

Section NumInversion.
Local Open Scope Q_scope.

Lemma norm_Fin_inv q c : norm q = Fin c -> c == q /\ Qred c = c.
Proof.
  unfold norm. destruct (Qlt_bool MAX_VALUE q), (Qlt_bool q (- MAX_VALUE)); try done.
  intros [= <-]. split; [apply Qred_correct | apply Qcanon.Qred_involutive].
Qed.

Lemma nadd_Fin_inv a b c :
  nadd a b = Fin c -> exists p q, a = Fin p /\ b = Fin q /\ c == p + q /\ Qred c = c.
Proof.
  destruct a as [| | |p], b as [| | |q]; try done. cbn.
  intros H%norm_Fin_inv. exists p, q. tauto.
Qed.

Lemma nsub_Fin_inv a b c :
  nsub a b = Fin c -> exists p q, a = Fin p /\ b = Fin q /\ c == p - q /\ Qred c = c.
Proof.
  unfold nsub. intros (p & q' & -> & Hb & Hc & Hr)%nadd_Fin_inv.
  destruct b as [| | |q]; try done. injection Hb as <-.
  exists p, q. rewrite Qred_correct in Hc. by repeat split.
Qed.

Lemma nmul_Fin_inv a b c :
  nmul a b = Fin c -> exists p q, a = Fin p /\ b = Fin q /\ c == p * q /\ Qred c = c.
Proof.
  destruct a as [| | |p], b as [| | |q]; cbn; try done.
  - destruct (Qis_zero q); [done|]. by destruct (Qnonneg q).
  - destruct (Qis_zero q); [done|]. by destruct (Qnonneg q).
  - destruct (Qis_zero p); [done|]. by destruct (Qnonneg p).
  - destruct (Qis_zero p); [done|]. by destruct (Qnonneg p).
  - intros H%norm_Fin_inv. exists p, q. tauto.
Qed.

Lemma Qis_zero_reflect q : reflect (q == 0) (Qis_zero q).
Proof. apply iff_reflect. symmetry. apply Qeq_bool_iff. Qed.

Lemma ndiv_Fin_inv a q c :
  ndiv a (Fin q) = Fin c ->
  exists p, a = Fin p /\ ~ q == 0 /\ c == p / q /\ Qred c = c.
Proof.
  destruct a as [| | |p]; cbn; try done; try by destruct (Qnonneg _).
  destruct (Qis_zero_reflect q).
  { destruct (Qis_zero p); [done|]. by destruct (Qnonneg p). }
  intros H%norm_Fin_inv. exists p. tauto.
Qed.

End NumInversion.

(** ** Structure of [calcLines] and [update] *)

Section Structure.

Variable E : env.

Lemma Some_pair_inv {A B : Type} (a c : A) (b d : B) :
  Some (a, b) = Some (c, d) -> a = c /\ b = d.
Proof. by intros [= -> ->]. Qed.

(** The blocks that a successful [calcLines] went through. *)
Lemma calcLines_Some grid lines vp st lines' :
  calcLines E grid lines vp = Some (st, lines') ->
  exists range padding fontSize values subvalues st1 labels,
    call_method E lines "getRange" [VObj (state_literal grid lines vp)] = Some range /\
    let s0 := resolve_style E lines range (state_literal grid lines vp) in
    resolve_padding E lines s0 = Some padding /\
    resolve_fontSize E lines = Some fontSize /\
    let s1 := <["fontFamily" := js_or (field lines "fontFamily") (VStr "sans-serif")]>
                (<["fontSize" := fontSize]> (<["padding" := padding]> s0)) in
    resolve_values E lines s1 = Some values /\
    resolve_subvalues E lines values (<["values" := values]> s1) = Some (subvalues, st1) /\
    let s2 := <["subvalues" := subvalues]> st1 in
    resolve_labels E lines values s2 = Some labels /\
    convert_mapping E lines values labels (<["labels" := labels]> s2) = Some (st, lines').
Proof.
  unfold calcLines. intros H.
  repeat (apply bind_Some in H; destruct H as (? & ? & H)).
  destruct x3 as [subvalues st1].
  apply bind_Some in H. destruct H as (labels & Hl & H).
  eauto 15.
Qed.

(** The subline block either leaves the state alone or sets [scale]. *)
Lemma resolve_subvalues_state lines values state sv st1 :
  resolve_subvalues E lines values state = Some (sv, st1) ->
  st1 = state \/ st1 = <["scale" := field state "scale"]>
                         (<["scale" := VNum (ndiv (to_num E (field state "scale")) (Fin 3))]> state).
Proof.
  unfold resolve_subvalues. intros H.
  destruct (field lines "sublines") eqn:Hs; simplify_option_eq; auto;
    destruct (field lines "lines") eqn:Hl; simplify_option_eq; auto;
    destruct (_ || _); simplify_option_eq; auto.
Qed.

Lemma resolve_subvalues_lookup lines values state sv st1 k :
  resolve_subvalues E lines values state = Some (sv, st1) ->
  k <> "scale" -> st1 !! k = state !! k.
Proof.
  intros H Hk. destruct (resolve_subvalues_state _ _ _ _ _ H) as [-> | ->]; [done|].
  by rewrite !lookup_insert_ne.
Qed.

(** The mapping block touches [labels], [values] and [lines] only. *)
Lemma convert_mapping_lookup lines values labels state st lines' k :
  convert_mapping E lines values labels state = Some (st, lines') ->
  k <> "labels" -> k <> "values" -> k <> "lines" -> st !! k = state !! k.
Proof.
  unfold convert_mapping. intros H H1 H2 H3.
  destruct labels as [| | | | | |mapping|]; try (by simplify_eq).
  apply bind_Some in H as (nulls & _ & H).
  apply bind_Some in H as ([values' labels'] & _ & H).
  simplify_eq. by rewrite !lookup_insert_ne.
Qed.

Lemma convert_mapping_config lines values labels state st lines' k :
  convert_mapping E lines values labels state = Some (st, lines') ->
  k <> "lines" -> lines' !! k = lines !! k.
Proof.
  unfold convert_mapping. intros H Hk.
  destruct labels as [| | | | | |mapping|]; try (by simplify_eq).
  apply bind_Some in H as (nulls & _ & H).
  apply bind_Some in H as ([values' labels'] & _ & H).
  simplify_eq.
  destruct (field lines "lines"); try done. by rewrite lookup_insert_ne.
Qed.

(** [calcLines] leaves every field of the configuration but [lines] as it
    was. *)
Lemma calcLines_config grid lines vp st lines' k :
  calcLines E grid lines vp = Some (st, lines') ->
  k <> "lines" -> lines' !! k = lines !! k.
Proof.
  intros H Hk. apply calcLines_Some in H.
  destruct H as (?&?&?&?&?&?&?&_&_&_&_&_&_&H). cbn zeta in H.
  eauto using convert_mapping_config.
Qed.

(** [normalize] writes [offset] only. *)
Lemma normalize_lookup axis vp axis' k :
  normalize E axis vp = Some axis' -> k <> "offset" -> axis' !! k = axis !! k.
Proof.
  unfold normalize. intros H Hk.
  destruct (truthy (field axis "disabled")); simplify_option_eq; [done|].
  by rewrite lookup_insert_ne.
Qed.

End Structure.

Section UpdateStructure.

Variable E : env.

Lemma merge_opts_viewport g opts :
  this_viewport (merge_opts E g opts) = this_viewport g.
Proof. unfold merge_opts. by repeat case_match. Qed.

Lemma merge_opts_state g opts :
  this_state (merge_opts E g opts) = this_state g.
Proof. unfold merge_opts. by repeat case_match. Qed.

(** The steps that a successful [update] went through. *)
Lemma update_Some g opts g' :
  update E g opts = Some g' ->
  let m := merge_opts E g opts in
  let vp := this_viewport g in
  exists x y sx x' sy y' gx gy,
    normalize E (this_x m) vp = Some x /\
    normalize E (this_y m) vp = Some y /\
    calcLines E gx x vp = Some (sx, x') /\
    calcLines E gy y vp = Some (sy, y') /\
    g' = {| this_x := x'; this_y := y'; this_r := this_r m; this_a := this_a m;
            this_viewport := vp;
            this_state := <["y" := VObj sy]> (<["x" := VObj sx]> (this_state g)) |}.
Proof.
  unfold update. intros H. cbn zeta.
  rewrite <- (merge_opts_viewport g opts), <- (merge_opts_state g opts).
  set (m := merge_opts E g opts) in *. clearbody m.
  apply bind_Some in H as (x & Hx & H).
  apply bind_Some in H as (y & Hy & H). cbn in Hy, H.
  apply bind_Some in H as ([sx x'] & Hsx & H). cbn in H.
  apply bind_Some in H as ([sy y'] & Hsy & H). cbn in H.
  injection H as <-.
  do 8 eexists. repeat split; eauto.
Qed.

(** The state stored for x and for y is the one [calcLines] returned for the
    configuration that [update] leaves in place, up to its [lines] field. *)
Lemma update_state g opts g' (k : axis_id) :
  update E g opts = Some g' ->
  k = AX \/ k = AY ->
  exists grid cfg,
    calcLines E grid cfg (this_viewport g) = Some (state_of g' (axis_key k), axis_of g' k) /\
    normalize E (axis_of (merge_opts E g opts) k) (this_viewport g) = Some cfg.
Proof.
  intros H Hk. apply update_Some in H.
  destruct H as (x & y & sx & x' & sy & y' & gx & gy & Hx & Hy & Hsx & Hsy & ->).
  destruct Hk as [-> | ->]; cbn.
  - exists gx, x. unfold state_of, field; cbn.
    rewrite lookup_insert_ne by done. rewrite lookup_insert_eq. cbn. auto.
  - exists gy, y. unfold state_of, field; cbn.
    rewrite lookup_insert_eq. cbn. auto.
Qed.

(** Past the merge, [update] rewrites nothing of a configuration but
    [offset] (normalisation) and [lines] (the mapping case of labels). *)
Lemma update_config g opts g' (k : axis_id) (key : string) :
  update E g opts = Some g' ->
  key <> "offset" -> key <> "lines" ->
  axis_of g' k !! key = axis_of (merge_opts E g opts) k !! key.
Proof.
  intros H H1 H2. apply update_Some in H.
  destruct H as (x & y & sx & x' & sy & y' & gx & gy & Hx & Hy & Hsx & Hsy & ->).
  destruct k; cbn; try done.
  - rewrite (calcLines_config _ _ _ _ _ _ _ Hsx) by done.
    eauto using normalize_lookup.
  - rewrite (calcLines_config _ _ _ _ _ _ _ Hsy) by done.
    eauto using normalize_lookup.
Qed.

End UpdateStructure.

(** ** Properties of [calcLines] *)

(** A key that is none of the listed literal keys. *)
Ltac solve_not_in :=
  rewrite ?not_elem_of_cons; repeat split; try done; apply not_elem_of_nil.

Section CalcLines.

Variable E : env.

(** What a key holds once [calcLines] is past the style block, for the keys
    that the later blocks do not write. *)
Lemma calcLines_style_key grid lines vp st lines' k :
  calcLines E grid lines vp = Some (st, lines') ->
  k ∉ ["padding"; "fontSize"; "fontFamily"; "values"; "scale"; "subvalues";
       "labels"; "lines"] ->
  exists range,
    call_method E lines "getRange" [VObj (state_literal grid lines vp)] = Some range /\
    st !! k = resolve_style E lines range (state_literal grid lines vp) !! k.
Proof.
  intros H Hk. apply calcLines_Some in H.
  destruct H as (range & padding & fontSize & values & subvalues & st1 & labels
                 & Hr & _ & _ & _ & Hsv & _ & Hm).
  cbn zeta in *. exists range. split; [done|].
  rewrite !not_elem_of_cons in Hk. destruct Hk as (?&?&?&?&?&?&?&?&_).
  rewrite (convert_mapping_lookup _ _ _ _ _ _ _ _ Hm) by done.
  rewrite !lookup_insert_ne by done.
  rewrite (resolve_subvalues_lookup _ _ _ _ _ _ _ Hsv) by done.
  by rewrite !lookup_insert_ne.
Qed.

(** C10.  Whatever the configuration and the viewport, the state returned
    by [calcLines] has its [labelColor] key set to [undefined]: it is read
    from [state.color], which nothing has written, so the configured
    [color], [lineColor] and [axisColor] have no influence on it. *)
Theorem calcLines_labelColor_undefined grid lines vp st lines' :
  calcLines E grid lines vp = Some (st, lines') ->
  st !! "labelColor" = Some VUndef.
Proof.
  intros H.
  destruct (calcLines_style_key _ _ _ _ _ "labelColor" H) as (range & _ & ->).
  { solve_not_in. }
  unfold resolve_style, state_literal, field. by simplify_map_eq.
Qed.

(** The mapping block only appends to an array of values. *)
Lemma convert_mapping_values lines vs labels state st lines' :
  convert_mapping E lines (VArr vs) labels state = Some (st, lines') ->
  state !! "values" = Some (VArr vs) ->
  exists extra, st !! "values" = Some (VArr (vs ++ extra)).
Proof.
  unfold convert_mapping. intros H Hv.
  destruct labels as [| | | | | |mapping|];
    try (injection H as <- <-; exists []; by rewrite app_nil_r).
  apply bind_Some in H as (nulls & _ & H).
  apply bind_Some in H as ([values' labels'] & Hp & H).
  injection H as <- <-.
  rewrite lookup_insert_ne by done. rewrite lookup_insert_eq.
  unfold push_mapping in Hp.
  destruct nulls; try done. destruct (for_in mapping).
  - injection Hp as <- <-. exists []. by rewrite app_nil_r.
  - injection Hp as <- <-. eauto.
Qed.

Lemma includes_app vs extra v :
  includes vs v = true -> includes (vs ++ extra) v = true.
Proof. unfold includes. rewrite existsb_app. by intros ->. Qed.

(** C7.  When [sublines] is [true] or unset and [lines] is a generator
    function, the derived [state.subvalues] is an array every element of
    which is found in [state.values] (in the sense of [indexOf]), for every
    generator and viewport. *)
Theorem subvalues_refine_values grid lines vp st lines' f :
  calcLines E grid lines vp = Some (st, lines') ->
  field lines "lines" = VFun f ->
  field lines "sublines" = VBool true \/ field lines "sublines" = VUndef ->
  exists svs,
    st !! "subvalues" = Some (VArr svs) /\
    forall v, v ∈ svs ->
      exists vs, st !! "values" = Some (VArr vs) /\ includes vs v = true.
Proof.
  intros H Hl Hs. apply calcLines_Some in H.
  destruct H as (range & padding & fontSize & values & subvalues & st1 & labels
                 & _ & _ & _ & _ & Hsv & _ & Hm).
  cbn zeta in *.
  assert (Hsub : st !! "subvalues" = Some subvalues).
  { rewrite (convert_mapping_lookup _ _ _ _ _ _ _ _ Hm) by done.
    rewrite lookup_insert_ne by done. by rewrite lookup_insert_eq. }
  assert (Hval : (<["labels" := labels]> (<["subvalues" := subvalues]> st1)) !! "values"
                 = Some values).
  { rewrite !lookup_insert_ne by done.
    rewrite (resolve_subvalues_lookup _ _ _ _ _ _ _ Hsv) by done.
    by rewrite lookup_insert_eq. }
  unfold resolve_subvalues in Hsv. rewrite Hl in Hsv.
  assert (Hgen : exists generated, filter_present values generated = Some subvalues).
  { destruct Hs as [Hs | Hs]; rewrite Hs in Hsv;
      cbv [strict_eq is_undefined Bool.eqb orb] in Hsv;
      apply bind_Some in Hsv as (generated & _ & Hsv);
      apply bind_Some in Hsv as (sv & Hf & Hsv);
      apply Some_pair_inv in Hsv as [<- _]; eauto. }
  destruct Hgen as (generated & Hf). unfold filter_present in Hf.
  destruct generated as [| | | | |l| |]; try done.
  destruct values as [| | | | |vs| |];
    try (destruct l; [injection Hf as <-; exists []; split; [done|];
                      intros v Hv; by apply elem_of_nil in Hv | done]).
  injection Hf as <-. eexists. split; [done|].
  intros v Hv. apply list_elem_of_In, filter_In in Hv as [_ Hv].
  destruct (convert_mapping_values _ _ _ _ _ _ Hm Hval) as (extra & ->).
  eauto using includes_app.
Qed.

(** The values and labels that the last block of [calcLines] receives. *)
Lemma calcLines_labels grid lines vp st lines' :
  calcLines E grid lines vp = Some (st, lines') ->
  exists values labels st2 st3,
    resolve_labels E lines values st2 = Some labels /\
    st3 !! "values" = Some values /\
    st3 !! "labels" = Some labels /\
    convert_mapping E lines values labels st3 = Some (st, lines').
Proof.
  intros H. apply calcLines_Some in H.
  destruct H as (range & padding & fontSize & values & subvalues & st1 & labels
                 & _ & _ & _ & _ & Hsv & Hl & Hm).
  cbn zeta in *. exists values, labels. do 2 eexists.
  split; [exact Hl|]. split; [|split; [|exact Hm]].
  - rewrite !lookup_insert_ne by done.
    rewrite (resolve_subvalues_lookup _ _ _ _ _ _ _ Hsv) by done.
    by rewrite lookup_insert_eq.
  - by rewrite lookup_insert_eq.
Qed.

(** [Array(values.length).fill(null)] on an array has its length. *)
Lemma null_labels_array vs r :
  null_labels (VArr vs) = Some r -> r = filled (length vs) VNull.
Proof.
  unfold null_labels, get. cbn [String.eqb Ascii.eqb Bool.eqb mbind option_bind].
  unfold Array_fill_null, vnum.
  rewrite (Qcanon.Qred_identity (inject_Z (Z.of_nat (length vs))))
    by apply Z.gcd_1_r.
  cbn [inject_Z Qnum Qden]. rewrite Nat2Z.id.
  destruct (_ && _); [|done]. by intros [= <-].
Qed.

(** Where the resolved labels come from when [labels] is not an explicit
    sequence. *)
Lemma resolve_labels_shape lines values st2 labels :
  resolve_labels E lines values st2 = Some labels ->
  is_array (field lines "labels") = false ->
  (forall f args r,
      field lines "labels" = VFun f -> call E f args = Some r -> isObj r = true) ->
  labels = values \/ isObj labels = true \/ null_labels values = Some labels.
Proof.
  unfold resolve_labels. cbn zeta. intros Hl Harr Hfun.
  destruct (strict_eq (field lines "labels") (VBool true)).
  { left. by injection Hl. }
  destruct (field lines "labels") as [| | | | | | |g] eqn:Hf; try done; auto.
  right; left. by apply (Hfun g _ _ eq_refl) in Hl.
Qed.

(** C8, as the code has it.  When the tick values of the state are a
    sequence, [state.values] and [state.labels] have the same length
    provided the [labels] field is not an explicit sequence and, if it is a
    function, that function returns a value-to-label mapping: that covers
    [labels === true], the mapping case and every other value (null labels,
    one per tick).  An explicit sequence, or the sequence a function
    returns, is stored as it is. *)
Theorem labels_parity grid lines vp st lines' vs :
  calcLines E grid lines vp = Some (st, lines') ->
  st !! "values" = Some (VArr vs) ->
  is_array (field lines "labels") = false ->
  (forall f args r,
      field lines "labels" = VFun f -> call E f args = Some r -> isObj r = true) ->
  exists ls, st !! "labels" = Some (VArr ls) /\ length ls = length vs.
Proof.
  intros H Hvs Harr Hfun.
  destruct (calcLines_labels _ _ _ _ _ H)
    as (values & labels & st2 & st3 & Hl & Hv3 & Hl3 & Hm).
  apply resolve_labels_shape in Hl; [|done..].
  unfold convert_mapping in Hm.
  destruct (isObj labels) eqn:Hobj.
  - destruct labels as [| | | | | |mapping|]; try done.
    apply bind_Some in Hm as (nulls & Hn & Hm).
    apply bind_Some in Hm as ([values' labels'] & Hp & Hm).
    injection Hm as <- <-.
    rewrite lookup_insert_ne, lookup_insert_eq in Hvs by done.
    injection Hvs as ->.
    rewrite lookup_insert_ne, lookup_insert_ne, lookup_insert_eq by done.
    unfold push_mapping in Hp.
    destruct nulls as [| | | | |ns| |]; try done.
    destruct (for_in mapping) as [|kv kvs] eqn:Hkvs.
    + injection Hp as -> <-.
      apply null_labels_array in Hn. injection Hn as ->.
      eexists. split; [done|]. by rewrite length_replicate.
    + destruct values as [| | | | |vs0| |]; try done.
      injection Hp as <- <-.
      apply null_labels_array in Hn. injection Hn as ->.
      eexists. split; [done|].
      rewrite !length_app, length_replicate. cbn [length].
      change (list_fmap _ _ ?f kvs) with (f <$> kvs). by rewrite !length_fmap.
  - assert (st = st3) as ->.
    { destruct labels; try done; by injection Hm. }
    rewrite Hv3 in Hvs. injection Hvs as ->. rewrite Hl3.
    destruct Hl as [-> | [Hl | Hl]]; [eauto | congruence |].
    apply null_labels_array in Hl as ->.
    eexists. split; [done|]. by rewrite length_replicate.
Qed.

End CalcLines.

(** ** When [calcLines] leaves the configuration alone *)

Section ConfigKept.

Variable E : env.

(** [calcLines] returns the configuration it was given unless the labels
    come from a function and the ticks are a literal array. *)
Lemma calcLines_keeps_config grid lines vp st lines' :
  calcLines E grid lines vp = Some (st, lines') ->
  is_array (field lines "lines") = false \/ is_function (field lines "labels") = false ->
  lines' = lines.
Proof.
  intros H Hc. apply calcLines_Some in H.
  destruct H as (range & padding & fontSize & values & subvalues & st1 & labels
                 & _ & _ & _ & Hv & _ & Hl & Hm).
  cbn zeta in *. unfold convert_mapping in Hm.
  destruct labels as [| | | | | |mapping|]; try (by injection Hm).
  apply bind_Some in Hm as (nulls & _ & Hm).
  apply bind_Some in Hm as ([values' labels'] & _ & Hm).
  injection Hm as _ <-.
  destruct (field lines "lines") as [| | | | |vs| |] eqn:Hf; try done.
  destruct Hc as [Hc | Hc]; [done|]. exfalso.
  unfold resolve_values in Hv. rewrite Hf in Hv. injection Hv as <-.
  unfold resolve_labels in Hl. cbn zeta in Hl.
  destruct (strict_eq (field lines "labels") (VBool true)); [done|].
  destruct (field lines "labels") eqn:Hlab; try done;
    by apply null_labels_array in Hl.
Qed.


(** [update] stores the [lines] field as merged: always for r and a, and for
    x and y unless [calcLines] may append to it. *)
Lemma update_config_lines g opts g' (k : axis_id) :
  update E g opts = Some g' ->
  (k = AR \/ k = AA) \/
  is_array (field (axis_of (merge_opts E g opts) k) "lines") = false \/
  is_function (field (axis_of (merge_opts E g opts) k) "labels") = false ->
  axis_of g' k !! "lines" = axis_of (merge_opts E g opts) k !! "lines".
Proof.
  intros H Hc. apply update_Some in H.
  destruct H as (x & y & sx & x' & sy & y' & gx & gy & Hx & Hy & Hsx & Hsy & ->).
  assert (Hkept : forall cfg cfg' grid stt (m : obj),
             normalize E m (this_viewport g) = Some cfg ->
             calcLines E grid cfg (this_viewport g) = Some (stt, cfg') ->
             is_array (field m "lines") = false \/ is_function (field m "labels") = false ->
             cfg' !! "lines" = m !! "lines").
  { intros cfg cfg' grid stt m Hn Hcl Hm.
    assert (Hf : forall key, key <> "offset" -> field cfg key = field m key).
    { intros key Hkey. unfold field. by rewrite (normalize_lookup E _ _ _ key Hn). }
    rewrite (calcLines_keeps_config _ _ _ _ _ Hcl).
    - by apply (normalize_lookup E _ _ _ "lines" Hn).
    - by rewrite !Hf. }
  destruct k; cbn [axis_of this_x this_y this_r this_a] in *; try done.
  - destruct Hc as [[Hc | Hc] | Hc]; try done. by apply (Hkept _ _ _ _ _ Hx Hsx).
  - destruct Hc as [[Hc | Hc] | Hc]; try done. by apply (Hkept _ _ _ _ _ Hy Hsy).
Qed.

(** No key of the state is [scale] before the subline block. *)
Lemma resolve_style_no_scale lines range grid vp :
  resolve_style E lines range (state_literal grid lines vp) !! "scale" = None.
Proof.
  unfold resolve_style, state_literal. by rewrite !lookup_insert_ne.
Qed.

(** The automatic branch of the subline block, run on a state without a
    [scale]. *)
Lemma resolve_subvalues_auto lines values (s1 : obj) subvalues st1 f :
  resolve_subvalues E lines values s1 = Some (subvalues, st1) ->
  field lines "lines" = VFun f ->
  field lines "sublines" = VBool true \/ field lines "sublines" = VUndef ->
  field s1 "scale" = VUndef ->
  exists generated,
    call E f [VObj (<["scale" := VNum NaN]> s1)] = Some generated /\
    filter_present values generated = Some subvalues /\
    st1 = <["scale" := VUndef]> (<["scale" := VNum NaN]> s1).
Proof.
  intros Hsv Hl Hs Hno. unfold resolve_subvalues in Hsv. rewrite Hl in Hsv.
  assert (Hsv' : call E f [VObj (<["scale" := VNum NaN]> s1)]
                 ≫= (fun generated => filter_present values generated
                 ≫= (fun sv => Some (sv, <["scale" := VUndef]>
                                           (<["scale" := VNum NaN]> s1))))
                 = Some (subvalues, st1)).
  { destruct Hs as [Hs | Hs]; rewrite Hs in Hsv;
      cbv [strict_eq is_undefined Bool.eqb orb] in Hsv;
      rewrite Hno in Hsv; exact Hsv. }
  apply bind_Some in Hsv' as (generated & Hg & Hsv').
  apply bind_Some in Hsv' as (sv & Hf & Hsv').
  apply Some_pair_inv in Hsv' as [<- <-]. by exists generated.
Qed.


End ConfigKept.

(** ** The constructor *)

Section Constructor.

Variable E : env.

Lemma extend_nil (target : obj) : extend target [] = target.
Proof. done. Qed.

Lemma extend_cons (target : obj) (v : value) (sources : list value) :
  extend target (v :: sources) = extend (own_props v ∪ target) sources.
Proof. done. Qed.

(** A source without enumerable properties changes nothing. *)
Lemma extend_props_empty (axis : obj) (v : value) :
  own_props v = ∅ -> extend_props axis (take_type E v) = axis.
Proof.
  intros Hv. unfold extend_props.
  assert (take_type E v = v) as ->.
  { destruct v; try done. cbn in Hv. subst. cbn. unfold field.
    by rewrite lookup_empty. }
  destruct (truthy v); [|done].
  rewrite extend_cons, extend_nil, Hv. apply (left_id_L ∅ (∪)).
Qed.

(** The [disabled] key of a prototype can only come from the [linear]
    preset. *)
Lemma proto_disabled (k : axis_id) :
  own_props (preset E (VStr "linear")) !! "disabled" = None ->
  proto_of E k !! "disabled" = None.
Proof.
  intros Hp.
  assert (Hd : defaults E !! "disabled" = None).
  { unfold defaults. rewrite extend_cons, extend_nil.
    apply lookup_union_None. split; [done|]. by vm_compute. }
  destruct k; cbn [proto_of]; unfold proto_x, proto_y, proto_r, proto_a;
    rewrite !extend_cons, extend_nil; cbn [own_props];
    rewrite !lookup_union_None; repeat split; try done; by vm_compute.
Qed.

(** The configuration that the constructor hands to [update] for an axis,
    and what the merge of [update] makes of it. *)
Lemma create_axis_omitted (k : axis_id) :
  own_props (preset E (VStr "linear")) !! "disabled" = None ->
  field (create_axis (proto_of E k) VUndef) "disabled" = VBool true.
Proof.
  intros Hp. unfold create_axis, field. cbn [is_undefined].
  rewrite !extend_cons, extend_nil. cbn [own_props].
  rewrite (left_id_L ∅ (∪)).
  rewrite lookup_union_r by by apply proto_disabled.
  by rewrite lookup_singleton_eq.
Qed.

Lemma create_axis_true (proto : obj) :
  field (create_axis proto (VBool true)) "disabled" = VBool false.
Proof. unfold create_axis, field. cbn. by rewrite lookup_insert_eq. Qed.

Lemma merge_opts_axis (g : Grid) (opts : obj) (k : axis_id) :
  axis_of (merge_opts E g (VObj opts)) k
  = extend_props (axis_of g k) (take_type E (field opts (axis_key k))).
Proof. by destruct k. Qed.

Lemma default_coords_polar (opts : obj) (k : axis_id) :
  k = AR \/ k = AA ->
  field (default_coords opts) (axis_key k) = field opts (axis_key k).
Proof.
  intros Hk. unfold default_coords, field.
  destruct (all_omitted opts); [|done].
  destruct Hk as [-> | ->]; cbn; by rewrite !lookup_insert_ne.
Qed.

(** C6, as the code has it.  After construction an axis whose key is
    omitted is disabled, except that when all four keys are omitted (or
    null) the constructor turns x and y on: then x and y are enabled and
    only r and a are disabled.  ([types.linear] is taken not to set
    [disabled].) *)
Theorem omitted_axis_disabled vp opts g :
  Grid_new E vp opts = Some g ->
  own_props (preset E (VStr "linear")) !! "disabled" = None ->
  (forall k,
      is_undefined (field opts (axis_key k)) = true ->
      all_omitted opts = false \/ k = AR \/ k = AA ->
      field (axis_of g k) "disabled" = VBool true) /\
  (all_omitted opts = true ->
   field (this_x g) "disabled" = VBool false /\
   field (this_y g) "disabled" = VBool false).
Proof.
  unfold Grid_new. cbn zeta. intros H Hp.
  set (g0 := Build_Grid _ _ _ _ _ _) in H.
  assert (Hcfg : forall k,
             field (axis_of g k) "disabled"
             = field (extend_props (axis_of g0 k)
                        (take_type E (field (default_coords opts) (axis_key k))))
                     "disabled").
  { intros k. unfold field at 1 2.
    rewrite (update_config _ _ _ _ k "disabled" H) by done.
    by rewrite merge_opts_axis. }
  split.
  - intros k Hu Hk. rewrite Hcfg.
    assert (field (default_coords opts) (axis_key k) = VUndef) as Hf.
    { destruct (field opts (axis_key k)) eqn:Hfk; try done.
      destruct Hk as [Hk | Hk].
      - unfold default_coords. by rewrite Hk.
      - by rewrite default_coords_polar. }
    rewrite Hf, extend_props_empty by done.
    destruct k; cbn [axis_of axis_key] in *; unfold g0;
      cbn [this_x this_y this_r this_a]; rewrite Hf.
    + by apply (create_axis_omitted AX).
    + by apply (create_axis_omitted AY).
    + by apply (create_axis_omitted AR).
    + by apply (create_axis_omitted AA).
  - intros Hall.
    assert (Hx : field (default_coords opts) "x" = VBool true).
    { unfold default_coords, field. rewrite Hall.
      rewrite lookup_insert_ne, lookup_insert_eq by done. done. }
    assert (Hy : field (default_coords opts) "y" = VBool true).
    { unfold default_coords, field. rewrite Hall. by rewrite lookup_insert_eq. }
    split.
    + change (this_x g) with (axis_of g AX).
      rewrite (Hcfg AX). cbn [axis_key axis_of]. unfold g0. cbn [this_x].
      rewrite Hx, extend_props_empty by done. apply create_axis_true.
    + change (this_y g) with (axis_of g AY).
      rewrite (Hcfg AY). cbn [axis_key axis_of]. unfold g0. cbn [this_y].
      rewrite Hy, extend_props_empty by done. apply create_axis_true.
Qed.

End Constructor.

(** ** Merging options *)

Section Merge.

Variable E : env.

(** What the merge of [update] stores for a fragment that names a type. *)
Lemma merge_typed_fragment (g : Grid) (opts : obj) (k : axis_id) (o : obj) :
  field opts (axis_key k) = VObj o ->
  truthy (field o "type") = true ->
  axis_of (merge_opts E g (VObj opts)) k
  = (own_props (preset E (field o "type")) ∪ o) ∪ axis_of g k.
Proof.
  intros Ho Ht. rewrite merge_opts_axis, Ho.
  unfold take_type, extend_props. rewrite Ht. cbn [truthy].
  by rewrite !extend_cons, !extend_nil.
Qed.

(** C2, as the code has it.  When a fragment names a type, the fields of
    the preset are written onto the fragment, so for a key set by both it is
    the value of the preset that [update] stores; the value of the fragment
    is stored for the keys that the preset does not set.  [offset], which
    [update] then normalises, is left aside, and so is [lines] of x and y
    in the one case where [calcLines] may append to it: an array of ticks
    together with labels that are a function. *)
Theorem preset_overrides_fragment g (opts : obj) g' (k : axis_id) (o : obj) (key : string) :
  update E g (VObj opts) = Some g' ->
  field opts (axis_key k) = VObj o ->
  truthy (field o "type") = true ->
  key <> "offset" ->
  let p := own_props (preset E (field o "type")) in
  let kept (v : value) :=
    key = "lines" ->
    (k = AR \/ k = AA) \/ is_array v = false \/
    is_function (field (axis_of g' k) "labels") = false in
  (forall v, p !! key = Some v -> kept v -> axis_of g' k !! key = Some v) /\
  (p !! key = None -> forall v, o !! key = Some v -> kept v -> axis_of g' k !! key = Some v).
Proof.
  intros H Ho Ht Hk1 p kept.
  assert (Hstored : forall v,
             axis_of (merge_opts E g (VObj opts)) k !! key = Some v ->
             kept v -> axis_of g' k !! key = Some v).
  { intros v Hv Hkept. destruct (decide (key = "lines")) as [-> | Hne].
    - rewrite (update_config_lines E _ _ _ k H); [done|].
      destruct (Hkept eq_refl) as [Hra | [Harr | Hfun]]; [by left | right; left | right; right].
      + unfold field. by rewrite Hv.
      + unfold field in *. by rewrite <- (update_config _ _ _ _ k "labels" H).
    - by rewrite (update_config _ _ _ _ k key H). }
  rewrite (merge_typed_fragment _ _ _ _ Ho Ht) in Hstored. fold p in Hstored.
  split.
  - intros v Hv. apply Hstored. apply lookup_union_Some_l. by apply lookup_union_Some_l.
  - intros Hp v Hv. apply Hstored. apply lookup_union_Some_l.
    rewrite lookup_union_r by done. done.
Qed.

End Merge.

(** ** Disabled axes *)

Section Disabled.

Variable E : env.





End Disabled.

(** ** The pan/zoom transform *)

Section Transform.

Variable E : env.

(** C5, as the code has it.  With pan enabled on an enabled axis, the
    transform of y adds the scaled vertical delta to the offset
    ([offset + scale * dy]) where the transform of x subtracts the scaled
    horizontal delta ([offset - scale * dx]); the zoom step then works from
    that offset, and leaves it as it is when zoom is switched off. *)
Theorem pan_offsets axis vp e :
  truthy (field axis "disabled") = false ->
  truthy (field axis "pan") = true ->
  let offset := to_num E (field axis "offset") in
  let scale := to_num E (field axis "scale") in
  let height := viewport_item E vp 3 in
  let width := viewport_item E vp 2 in
  let origin := to_num E (js_or (field axis "origin") (vnum 0)) in
  let ty := nsub origin (ndiv (nsub (e_y e) (viewport_item E vp 1)) height) in
  let tx := nsub (ndiv (nsub (e_x e) (viewport_item E vp 0)) width) origin in
  let panned_y := VNum (nadd offset (nmul scale (e_dy e))) in
  let panned_x := VNum (nsub offset (nmul scale (e_dx e))) in
  transform_y E axis vp e
  = zoom_axis E axis height (zoom_of e height) ty
      (<["offset" := panned_y]> (fragment_of axis)) /\
  transform_x E axis vp e
  = zoom_axis E axis width (zoom_of e height) tx
      (<["offset" := panned_x]> (fragment_of axis)) /\
  (strict_eq (field axis "zoom") (VBool false) = true ->
   field (transform_y E axis vp e) "offset" = panned_y /\
   field (transform_x E axis vp e) "offset" = panned_x).
Proof.
  intros Hd Hp offset scale height width origin ty tx panned_y panned_x.
  assert (Hy : transform_y E axis vp e
               = zoom_axis E axis height (zoom_of e height) ty
                   (<["offset" := panned_y]> (fragment_of axis))).
  { unfold transform_y, pan_y. rewrite Hd, Hp. cbn zeta.
    unfold panned_y, offset, scale, fragment_of, field.
    by rewrite lookup_insert_eq, lookup_insert_ne, lookup_singleton_eq. }
  assert (Hx : transform_x E axis vp e
               = zoom_axis E axis width (zoom_of e height) tx
                   (<["offset" := panned_x]> (fragment_of axis))).
  { unfold transform_x, pan_x. rewrite Hd, Hp. cbn zeta.
    unfold panned_x, offset, fragment_of, field.
    by rewrite lookup_insert_ne, lookup_singleton_eq. }
  split; [done|]. split; [done|].
  intros Hz. rewrite Hy, Hx. unfold zoom_axis. rewrite Hz.
  unfold field. by rewrite !lookup_insert_eq.
Qed.

End Transform.

(** ** Bounds on scale and offset *)

Section Bounds.

Variable E : env.

Lemma fragment_of_lookup (axis : obj) (key : string) :
  key <> "offset" -> key <> "scale" -> fragment_of axis !! key = None.
Proof.
  intros. unfold fragment_of.
  by rewrite lookup_insert_ne, lookup_singleton_ne.
Qed.

Lemma pan_x_lookup axis e (x : obj) (key : string) :
  key <> "offset" -> pan_x E axis e x !! key = x !! key.
Proof. intros. unfold pan_x. case_match; [|done]. by rewrite lookup_insert_ne. Qed.

Lemma pan_y_lookup axis e (y : obj) (key : string) :
  key <> "offset" -> pan_y E axis e y !! key = y !! key.
Proof. intros. unfold pan_y. case_match; [|done]. by rewrite lookup_insert_ne. Qed.

Lemma zoom_axis_lookup axis extent zoom t (k : obj) (key : string) :
  key <> "offset" -> key <> "scale" ->
  zoom_axis E axis extent zoom t k !! key = k !! key.
Proof.
  intros. unfold zoom_axis. case_match; [done|]. by rewrite !lookup_insert_ne.
Qed.

Lemma zoom_axis_scale axis extent zoom t (k : obj) :
  strict_eq (field axis "zoom") (VBool false) = false ->
  zoom_axis E axis extent zoom t k !! "scale"
  = Some (VNum (clamp (nmul (to_num E (field k "scale")) (nsub (Fin 1) zoom))
                      (to_num E (field axis "minScale"))
                      (to_num E (field axis "maxScale")))).
Proof.
  intros Hz. unfold zoom_axis. rewrite Hz.
  by rewrite lookup_insert_ne, lookup_insert_eq.
Qed.

(** The fragment built for an axis: its scale when zoom is active, and its
    keys. *)
Lemma transform_scale (k : axis_id) axis vp e :
  k = AX \/ k = AY ->
  truthy (field axis "disabled") = false ->
  strict_eq (field axis "zoom") (VBool false) = false ->
  let frag := match k with AX => transform_x E axis vp e | _ => transform_y E axis vp e end in
  frag !! "scale"
  = Some (VNum (clamp (nmul (to_num E (field axis "scale"))
                            (nsub (Fin 1) (zoom_of e (viewport_item E vp 3))))
                      (to_num E (field axis "minScale"))
                      (to_num E (field axis "maxScale")))).
Proof.
  intros Hk Hd Hz. cbn zeta.
  assert (Hs : forall e', field (pan_x E axis e' (fragment_of axis)) "scale"
                          = field axis "scale"
                          /\ field (pan_y E axis e' (fragment_of axis)) "scale"
                             = field axis "scale").
  { intros e'. unfold field.
    rewrite pan_x_lookup, pan_y_lookup by done. unfold fragment_of.
    by rewrite lookup_insert_eq. }
  destruct Hk as [-> | ->]; unfold transform_x, transform_y; rewrite Hd; cbn zeta;
    rewrite zoom_axis_scale by done.
  - by rewrite (proj1 (Hs e)).
  - by rewrite (proj2 (Hs e)).
Qed.

Lemma transform_lookup (k : axis_id) axis vp e (key : string) :
  key <> "offset" -> key <> "scale" ->
  match k with AX => transform_x E axis vp e | _ => transform_y E axis vp e end !! key
  = None.
Proof.
  intros H1 H2.
  destruct k; unfold transform_x, transform_y; case_match;
    rewrite ?zoom_axis_lookup, ?pan_x_lookup, ?pan_y_lookup by done;
    by apply fragment_of_lookup.
Qed.

(** What [on_panzoom] stores as the scale of x and y. *)
Lemma on_panzoom_scale g e g' (k : axis_id) :
  on_panzoom E g e = Some g' ->
  k = AX \/ k = AY ->
  forall v,
    match k with
    | AX => transform_x E (this_x g) (this_viewport g) e
    | _ => transform_y E (this_y g) (this_viewport g) e
    end !! "scale" = Some v ->
    axis_of g' k !! "scale" = Some v.
Proof.
  unfold on_panzoom. intros H Hk v Hv.
  rewrite (update_config _ _ _ _ k "scale" H) by done.
  rewrite merge_opts_axis.
  set (fx := transform_x E (this_x g) (this_viewport g) e).
  set (fy := transform_y E (this_y g) (this_viewport g) e).
  assert (Hfrag : field (<["x" := VObj fx]> {[ "y" := VObj fy ]}) (axis_key k)
                  = VObj (match k with AX => fx | _ => fy end)).
  { unfold field. destruct Hk as [-> | ->]; cbn [axis_key].
    - by rewrite lookup_insert_eq.
    - by rewrite lookup_insert_ne, lookup_singleton_eq. }
  rewrite Hfrag. unfold take_type, extend_props.
  assert (Ht : field (match k with AX => fx | _ => fy end) "type" = VUndef).
  { unfold field. pose proof (transform_lookup k) as Hl.
    destruct Hk as [-> | ->].
    - unfold fx. by rewrite (Hl (this_x g)).
    - unfold fy. by rewrite (Hl (this_y g)). }
  rewrite Ht. cbn [truthy]. rewrite extend_cons, extend_nil. cbn [own_props].
  destruct Hk as [-> | ->]; cbn [axis_of]; by apply lookup_union_Some_l.
Qed.

Lemma resolve_style_range lines range (state : obj) :
  resolve_style E lines range state !! "range" = Some range.
Proof.
  unfold resolve_style. rewrite !lookup_insert_ne by done. apply lookup_insert_eq.
Qed.

Lemma resolve_style_offset lines range (state : obj) :
  resolve_style E lines range state !! "offset"
  = Some (VNum (resolve_offset E lines range)).
Proof.
  unfold resolve_style. rewrite !lookup_insert_ne by done. apply lookup_insert_eq.
Qed.

(** C9, as the code has it.  [update] stores the scale it is given and
    does not clamp it; the clamp is in the pan/zoom handler.  So after a
    pan/zoom event on an enabled axis with zoom active, the stored scale lies
    between [minScale] and [maxScale] (given [minScale <= maxScale] and a
    product [scale * (1 - zoom)] that is a number).  After any [update],
    when the range is finite, [offset - range * origin] is a number and the
    clamp bounds of [calcLines] are in order
    ([max(min, -MAX_VALUE+1) <= min(max, MAX_VALUE) - range]), the state
    offset lies between [min] and [max - range]. *)
Theorem scale_and_offset_bounds :
  (forall g e g' (k : axis_id),
      on_panzoom E g e = Some g' ->
      k = AX \/ k = AY ->
      truthy (field (axis_of g k) "disabled") = false ->
      strict_eq (field (axis_of g k) "zoom") (VBool false) = false ->
      let minScale := to_num E (field (axis_of g k) "minScale") in
      let maxScale := to_num E (field (axis_of g k) "maxScale") in
      let zoom := zoom_of e (viewport_item E (this_viewport g) 3) in
      is_nan (nmul (to_num E (field (axis_of g k) "scale")) (nsub (Fin 1) zoom)) = false ->
      nle minScale maxScale = true ->
      exists scale,
        field (axis_of g' k) "scale" = VNum scale /\
        nle minScale scale = true /\ nle scale maxScale = true) /\
  (forall g opts g' (k : axis_id) (r : Q),
      update E g opts = Some g' ->
      k = AX \/ k = AY ->
      let cfg := axis_of g' k in
      let st := state_of g' (axis_key k) in
      field st "range" = VNum (Fin r) ->
      is_nan (nsub (to_num E (field cfg "offset"))
                   (nmul (Fin r) (clamp (to_num E (field cfg "origin")) (Fin 0) (Fin 1))))
      = false ->
      nle (Math_max (to_num E (field cfg "min")) (nadd (nneg (Fin MAX_VALUE)) (Fin 1)))
          (nsub (Math_min (to_num E (field cfg "max")) (Fin MAX_VALUE)) (Fin r)) = true ->
      exists offset,
        field st "offset" = VNum offset /\
        nle (to_num E (field cfg "min")) offset = true /\
        nle offset (nsub (to_num E (field cfg "max")) (Fin r)) = true).
Proof.
  split.
  - intros g e g' k H Hk Hd Hz minScale maxScale zoom Hnan Hle.
    pose proof (transform_scale k (axis_of g k) (this_viewport g) e Hk Hd Hz) as Ht.
    cbn zeta in Ht.
    assert (Hs' : axis_of g' k !! "scale"
                  = Some (VNum (clamp (nmul (to_num E (field (axis_of g k) "scale"))
                                            (nsub (Fin 1) zoom)) minScale maxScale))).
    { apply (on_panzoom_scale _ _ _ _ H Hk).
      destruct Hk as [-> | ->]; exact Ht. }
    eexists. unfold field at 1. rewrite Hs'. split; [done|].
    by apply clamp_bounds.
  - intros g opts g' k r H Hk cfg st Hr Hnan Hle.
    destruct (update_state _ _ _ _ k H Hk) as (grid & cfg0 & Hc & _).
    fold st cfg in Hc.
    assert (Hkey : forall key, key <> "lines" -> field cfg0 key = field cfg key).
    { intros key Hne. unfold field.
      by rewrite (calcLines_config _ _ _ _ _ _ key Hc). }
    destruct (calcLines_style_key _ _ _ _ _ _ "range" Hc) as (range & Hcall & Hrange).
    { solve_not_in. }
    destruct (calcLines_style_key _ _ _ _ _ _ "offset" Hc) as (range' & Hcall' & Hoff).
    { solve_not_in. }
    assert (range' = range) as -> by congruence.
    assert (range = VNum (Fin r)) as ->.
    { unfold field in Hr. rewrite Hrange, resolve_style_range in Hr.
      exact Hr. }
    assert (Hoff' : st !! "offset" = Some (VNum (resolve_offset E cfg0 (VNum (Fin r))))).
    { rewrite Hoff. apply resolve_style_offset. }
    exists (resolve_offset E cfg0 (VNum (Fin r))).
    unfold field at 1. rewrite Hoff'. split; [done|].
    unfold resolve_offset, anchored_offset. rewrite !Hkey by done. cbn [to_num].
    set (lo := Math_max _ _) in *. set (hi := nsub (Math_min _ _) _) in *.
    set (a := nsub _ (nmul _ _)) in *.
    destruct (clamp_bounds a lo hi Hnan Hle) as [Hlo Hhi].
    split.
    + eapply nle_trans; [|exact Hlo].
      apply Math_max_ge_l. by eapply nle_not_nan_l.
    + eapply nle_trans; [exact Hhi|].
      apply nsub_mono, Math_min_le_l.
      pose proof (nle_not_nan_r _ _ Hle) as Hhn. unfold hi in Hhn.
      by destruct (Math_min _ _).
Qed.

End Bounds.

(** ** Focal-point zoom

    The zoom step moves the offset by [extent * (scale - prevScale) * t].
    With the focal fraction [tx = p - origin] of x this keeps the value
    under the pointer where it is, for every origin in [0, 1].  With the
    fraction [ty = origin - p] of y it does so when the origin is 1/2. *)

Section Focal.
Local Open Scope Q_scope.
Lemma focal_algebra_x (o o' s s' w c f v R R' so so' r r' : Q) :
  R == w * s -> R' == w * s' ->
  so == o - R * c -> so' == o' - R' * c ->
  o' == o - (w * (s' - s)) * (f - c) ->
  ~ R == 0 -> ~ R' == 0 ->
  r == (v - so) / R -> r' == (v - so') / R' ->
  r == f -> r' == f.
Proof.
  intros HR HR' Hso Hso' Ho' HR0 HR'0 Hr Hr' Hf.
  assert (Hv : v - so == f * R).
  { rewrite <- Hf, Hr. field. exact HR0. }
  rewrite Hr'. 
  assert (Hv' : v - so' == f * R').
  { rewrite Hso', Ho', HR'. rewrite Hso, HR in Hv. 
    setoid_replace v with (f * (w * s) + (o - w * s * c)) using relation Qeq by lra. ring. }
  rewrite Hv'. field. exact HR'0.
Qed.

Lemma focal_algebra_y (o o' s s' h c f v R R' so so' r r' : Q) :
  R == h * s -> R' == h * s' ->
  so == o - R * c -> so' == o' - R' * c ->
  o' == o - (h * (s' - s)) * (c - f) ->
  ~ R == 0 -> ~ R' == 0 ->
  r == 1 - (v - so) / R -> r' == 1 - (v - so') / R' ->
  c == 1 # 2 ->
  r == f -> r' == f.
Proof.
  intros HR HR' Hso Hso' Ho' HR0 HR'0 Hr Hr' Hc Hf.
  assert (Hv : v - so == (1 - f) * R).
  { rewrite <- Hf, Hr. field. exact HR0. }
  rewrite Hr'.
  assert (Hv' : v - so' == (1 - f) * R').
  { rewrite Hso', Ho', HR'. rewrite Hso, HR in Hv. rewrite Hc in *.
    setoid_replace v with ((1 - f) * (h * s) + (o - h * s * (1 # 2))) using relation Qeq by lra. ring. }
  rewrite Hv'. field. exact HR'0.
Qed.

Variable E : env.

Lemma clamp_unit (c : Q) : 0 <= c <= 1 -> exists c', clamp (Fin c) (Fin 0) (Fin 1) = Fin c' /\ c' == c.
Proof.
  intros [H0 H1]. unfold clamp, ngt, Math_max, Math_min. cbn.
  destruct (Qlt_bool_reflect 0 1) as [_|Hn]; [|lra].
  destruct (Qlt_bool_reflect 1 c); [exists 1; split; [|lra]|].
  - cbn. destruct (Qlt_bool_reflect 1 0); [lra|done].
  - cbn. destruct (Qlt_bool_reflect c 0); [lra|]. by exists c.
Qed.

Lemma origin_or_zero (c : Q) :
  exists c', to_num E (js_or (vnum c) (vnum 0)) = Fin c' /\ c' == c.
Proof.
  unfold js_or, vnum. cbn [truthy].
  destruct (Qis_zero_reflect c); cbn.
  - exists 0. split; [done|lra].
  - exists c. split; [done|lra].
Qed.

(** The two fields of the fragment after the zoom step. *)
Lemma zoom_axis_fields axis extent zoom t (k : obj) :
  strict_eq (field axis "zoom") (VBool false) = false ->
  let prev := to_num E (field k "scale") in
  let scale := clamp (nmul prev (nsub (Fin 1) zoom))
                     (to_num E (field axis "minScale")) (to_num E (field axis "maxScale")) in
  field (zoom_axis E axis extent zoom t k) "scale" = VNum scale /\
  field (zoom_axis E axis extent zoom t k) "offset"
  = VNum (nsub (to_num E (field k "offset")) (nmul (nmul extent (nsub scale prev)) t)).
Proof.
  intros Hz. unfold zoom_axis. rewrite Hz. cbn zeta.
  split; unfold field at 1.
  - by rewrite lookup_insert_ne, lookup_insert_eq.
  - by rewrite lookup_insert_eq.
Qed.

(** The offset that enters the zoom step of x when the event carries no
    horizontal drag. *)
Lemma pan_x_still axis e (o s : Q) :
  to_num E (field axis "offset") = Fin o ->
  to_num E (field axis "scale") = Fin s ->
  truthy (field axis "pan") = false \/ e_dx e = Fin 0 ->
  forall p, to_num E (field (pan_x E axis e (fragment_of axis)) "offset") = Fin p -> p == o.
Proof.
  intros Ho Hs Hpan p. unfold pan_x.
  assert (Hfrag : field (fragment_of axis) "offset" = field axis "offset").
  { unfold fragment_of, field. by rewrite lookup_insert_ne, lookup_singleton_eq. }
  destruct (truthy (field axis "pan")).
  - destruct Hpan as [|Hdx]; [done|].
    unfold field at 1. rewrite lookup_insert_eq. cbn [default to_num id].
    rewrite Hfrag, Ho, Hs, Hdx.
    intros (o1 & m & [= <-] & Hm & Hp & _)%nsub_Fin_inv.
    apply nmul_Fin_inv in Hm as (s1 & z & [= <-] & [= <-] & Hm & _).
    rewrite Hp, Hm. ring.
  - rewrite Hfrag, Ho. by intros [= <-].
Qed.


Lemma ndiv_Fin_num a b c : ndiv a b = Fin c -> exists p, a = Fin p.
Proof. destruct a as [| | |p]; eauto; by destruct b as [| | |q]; cbn; try destruct (Qnonneg q). Qed.

Lemma field_lookup (o : obj) (k : string) (n : num) :
  field o k = VNum n -> o !! k = Some (VNum n).
Proof. unfold field. destruct (o !! k) as [w|]; cbn; [by intros ->|done]. Qed.

Lemma field_union_l (o1 o2 : obj) (k : string) (n : num) :
  field o1 k = VNum n -> field (o1 ∪ o2) k = VNum n.
Proof.
  intros H%field_lookup. unfold field. by erewrite lookup_union_Some_l.
Qed.

Lemma field_union_r (o1 o2 : obj) (k : string) :
  o1 !! k = None -> field (o1 ∪ o2) k = field o2 k.
Proof. intros H. unfold field. by rewrite lookup_union_r. Qed.

(** What [getRatio] of x computes on a state. *)
Lemma getRatio_x_Fin (v : value) (st : obj) (off range : num) (f : Q) :
  field st "offset" = VNum off ->
  field st "range" = VNum range ->
  getRatio_x_body E [v; VObj st] = Some (vnum f) ->
  ndiv (nsub (to_num E v) off) range = Fin f.
Proof.
  unfold getRatio_x_body, arg, get, vnum. cbn [nth mbind option_bind].
  fold (field st "offset") (field st "range"). intros -> ->. cbn [to_num].
  intros [= H]. exact H.
Qed.

(** Focal-point zoom on x.  On an enabled x axis with zoom active, an origin
    in [0, 1] and an event without horizontal drag (or pan switched off): if
    neither offset clamp binds (the states hold the anchored offsets of the
    configuration before the event and of the configuration merged with
    the fragment of the handler), a value that [getRatio] puts at the pointer
    fraction before the event is put at the same fraction after it.  The
    scale clamp may bind. *)
Theorem zoom_x_keeps_focal_point axis vp e (st0 st1 : obj) (v : value) (c f f' : Q) :
  truthy (field axis "disabled") = false ->
  strict_eq (field axis "zoom") (VBool false) = false ->
  truthy (field axis "pan") = false \/ e_dx e = Fin 0 ->
  field axis "origin" = vnum c -> 0 <= c <= 1 ->
  let axis' := transform_x E axis vp e ∪ axis in
  let range0 := nmul (viewport_item E vp 2) (to_num E (field axis "scale")) in
  let range1 := nmul (viewport_item E vp 2) (to_num E (field axis' "scale")) in
  field st0 "range" = VNum range0 ->
  field st0 "offset" = VNum (anchored_offset E axis (VNum range0)) ->
  field st1 "range" = VNum range1 ->
  field st1 "offset" = VNum (anchored_offset E axis' (VNum range1)) ->
  ndiv (nsub (e_x e) (viewport_item E vp 0)) (viewport_item E vp 2) = Fin f ->
  getRatio_x_body E [v; VObj st0] = Some (vnum f) ->
  getRatio_x_body E [v; VObj st1] = Some (vnum f') ->
  f' = f.
Proof.
  intros Hd Hz Hpan Hc Hc01 axis' range0 range1 Hr0 Ho0 Hr1 Ho1 Hptr Hb Ha.
  assert (Hrange0 : range0 = nmul (viewport_item E vp 2) (to_num E (field axis "scale")))
    by done.
  assert (Hrange1 : range1 = nmul (viewport_item E vp 2) (to_num E (field axis' "scale")))
    by done.
  clearbody range0 range1.
  (* the fragment and the merged configuration *)
  assert (Hfrag : transform_x E axis vp e
                  = zoom_axis E axis (viewport_item E vp 2)
                      (zoom_of e (viewport_item E vp 3))
                      (nsub (ndiv (nsub (e_x e) (viewport_item E vp 0)) (viewport_item E vp 2))
                            (to_num E (js_or (field axis "origin") (vnum 0))))
                      (pan_x E axis e (fragment_of axis))).
  { unfold transform_x. by rewrite Hd. }
  destruct (zoom_axis_fields axis (viewport_item E vp 2)
              (zoom_of e (viewport_item E vp 3))
              (nsub (ndiv (nsub (e_x e) (viewport_item E vp 0)) (viewport_item E vp 2))
                    (to_num E (js_or (field axis "origin") (vnum 0))))
              (pan_x E axis e (fragment_of axis)) Hz) as [Hfs Hfo].
  rewrite <- Hfrag in Hfs, Hfo. cbn zeta in Hfs, Hfo.
  assert (Hprev : field (pan_x E axis e (fragment_of axis)) "scale" = field axis "scale").
  { unfold field. rewrite pan_x_lookup by done. unfold fragment_of.
    by rewrite lookup_insert_eq. }
  rewrite Hprev in Hfs, Hfo.
  set (scale' := clamp _ _ _) in Hfs, Hfo.
  assert (Hs1 : field axis' "scale" = VNum scale') by by apply field_union_l.
  assert (Ho1' : field axis' "offset" = _) by (apply field_union_l; exact Hfo).
  assert (Hor1 : field axis' "origin" = vnum c).
  { unfold axis'. rewrite field_union_r; [done|].
    by apply (transform_lookup E AX). }
  (* before the event *)
  pose proof (getRatio_x_Fin _ _ _ _ _ Ho0 Hr0 Hb) as Hb'.
  destruct (ndiv_Fin_num _ _ _ Hb') as (n0 & Hn0).
  apply nsub_Fin_inv in Hn0 as (tv & so & Htv & Hso & _ & _).
  unfold anchored_offset in Hso. rewrite Hc in Hso. cbn [to_num vnum] in Hso.
  apply nsub_Fin_inv in Hso as (o & m0 & Ho & Hm0 & Hso & _).
  apply nmul_Fin_inv in Hm0 as (R & c0 & HR & Hc0 & Hm0 & _).
  destruct (clamp_unit c Hc01) as (c1 & Hc1 & Hc1').
  rewrite Hc1 in Hc0. injection Hc0 as <-.
  pose proof HR as HR2. rewrite Hrange0 in HR2.
  apply nmul_Fin_inv in HR2 as (w & s & Hw & Hs & HRws & _).
  rewrite HR in Hb'. unfold anchored_offset in Hb'.
  rewrite Hc, Ho in Hb'. cbn [to_num vnum] in Hb'. rewrite Hc1, Htv in Hb'.
  (* after the event *)
  pose proof (getRatio_x_Fin _ _ _ _ _ Ho1 Hr1 Ha) as Ha'.
  destruct (ndiv_Fin_num _ _ _ Ha') as (n1 & Hn1).
  rewrite Htv in Hn1.
  apply nsub_Fin_inv in Hn1 as (tv' & so' & [= <-] & Hso' & _ & _).
  unfold anchored_offset in Hso'. rewrite Hor1, Ho1' in Hso'.
  cbn [to_num vnum] in Hso'. rewrite Hc1 in Hso'.
  apply nsub_Fin_inv in Hso' as (o' & m1 & Ho' & Hm1 & Hso' & _).
  apply nmul_Fin_inv in Hm1 as (R' & c2 & HR' & [= <-] & Hm1 & _).
  pose proof HR' as HR2'. rewrite Hrange1, Hs1, Hw in HR2'.
  cbn [to_num] in HR2'.
  apply nmul_Fin_inv in HR2' as (w' & s' & [= <-] & Hs' & HRws' & _).
  (* the new offset *)
  pose proof Ho' as EqO'.
  rewrite Hptr, Hs', Hs, Hw in Ho'.
  apply nsub_Fin_inv in Ho' as (p0 & x0 & Hp0 & Hx0 & Ho' & _).
  apply nmul_Fin_inv in Hx0 as (y0 & t0 & Hy0 & Ht0 & Hx0 & _).
  apply nmul_Fin_inv in Hy0 as (w2 & d0 & [= <-] & Hd0 & Hy0 & _).
  apply nsub_Fin_inv in Hd0 as (s2 & s3 & [= <-] & [= <-] & Hd0 & _).
  rewrite Hc in Ht0. destruct (origin_or_zero c) as (c3 & Hc3 & Hc3').
  rewrite Hc3 in Ht0.
  apply nsub_Fin_inv in Ht0 as (f0 & c4 & [= <-] & [= <-] & Ht0 & _).
  pose proof (pan_x_still axis e o s Ho Hs Hpan p0 Hp0) as Hp0'.
  (* the two ratios *)
  unfold anchored_offset in Ha'. rewrite Ho1', Hor1 in Ha'.
  cbn [to_num vnum] in Ha'. rewrite Htv, EqO', HR', Hc1 in Ha'.
  apply ndiv_Fin_inv in Hb' as (nb & Hnb & HR0 & Hfb & Hfc).
  apply nsub_Fin_inv in Hnb as (tv1 & sb & [= <-] & Hsb & Hnb & _).
  apply nsub_Fin_inv in Hsb as (o1 & mb & [= <-] & Hmb & Hsb & _).
  apply nmul_Fin_inv in Hmb as (R1 & c5 & [= <-] & [= <-] & Hmb & _).
  apply ndiv_Fin_inv in Ha' as (na & Hna & HR0' & Hfa & Hfc').
  apply nsub_Fin_inv in Hna as (tv2 & sa & [= <-] & Hsa & Hna & _).
  apply nsub_Fin_inv in Hsa as (o2 & ma & [= <-] & Hma & Hsa & _).
  apply nmul_Fin_inv in Hma as (R2 & c6 & [= <-] & [= <-] & Hma & _).
  rewrite <- Hfc, <- Hfc'. apply Qred_complete.
  apply (focal_algebra_x o o' s s' w c f tv R R' sb sa f f'); try done.
  - rewrite Hsb, Hmb, Hc1'. reflexivity.
  - rewrite Hsa, Hma, Hc1'. reflexivity.
  - rewrite Ho', Hp0', Hx0, Hy0, Hd0, Ht0, Hc3'. reflexivity.
  - rewrite Hfb, Hnb. reflexivity.
  - rewrite Hfa, Hna. reflexivity.
Qed.

(** The offset that enters the zoom step of y when the event carries no
    vertical drag. *)
Lemma pan_y_still axis e (o s : Q) :
  to_num E (field axis "offset") = Fin o ->
  to_num E (field axis "scale") = Fin s ->
  truthy (field axis "pan") = false \/ e_dy e = Fin 0 ->
  forall p, to_num E (field (pan_y E axis e (fragment_of axis)) "offset") = Fin p -> p == o.
Proof.
  intros Ho Hs Hpan p. unfold pan_y.
  assert (Hfrag : field (fragment_of axis) "offset" = field axis "offset").
  { unfold fragment_of, field. by rewrite lookup_insert_ne, lookup_singleton_eq. }
  assert (Hfrag' : field (fragment_of axis) "scale" = field axis "scale").
  { unfold fragment_of, field. by rewrite lookup_insert_eq. }
  destruct (truthy (field axis "pan")).
  - destruct Hpan as [|Hdy]; [done|].
    unfold field at 1. rewrite lookup_insert_eq. cbn [default to_num id].
    rewrite Hfrag, Hfrag', Ho, Hs, Hdy.
    intros (o1 & m & [= <-] & Hm & Hp & _)%nadd_Fin_inv.
    apply nmul_Fin_inv in Hm as (s1 & z & [= <-] & [= <-] & Hm & _).
    rewrite Hp, Hm. ring.
  - rewrite Hfrag, Ho. by intros [= <-].
Qed.

(** What [getRatio] of y computes on a state. *)
Lemma getRatio_y_Fin (v : value) (st : obj) (off range : num) (f : Q) :
  field st "offset" = VNum off ->
  field st "range" = VNum range ->
  getRatio_y_body E [v; VObj st] = Some (vnum f) ->
  nsub (Fin 1) (ndiv (nsub (to_num E v) off) range) = Fin f.
Proof.
  unfold getRatio_y_body, arg, get, vnum. cbn [nth mbind option_bind].
  fold (field st "offset") (field st "range"). intros -> ->. cbn [to_num].
  intros [= H]. exact H.
Qed.

(** Focal-point zoom on y, for the origin 1/2 only: same statement as for
    x, with the height, the vertical position of the pointer and the
    [getRatio] of y. *)
Theorem zoom_y_keeps_focal_point_at_half axis vp e (st0 st1 : obj) (v : value) (f f' : Q) :
  truthy (field axis "disabled") = false ->
  strict_eq (field axis "zoom") (VBool false) = false ->
  truthy (field axis "pan") = false \/ e_dy e = Fin 0 ->
  field axis "origin" = vnum (1 # 2) ->
  let axis' := transform_y E axis vp e ∪ axis in
  let range0 := nmul (viewport_item E vp 3) (to_num E (field axis "scale")) in
  let range1 := nmul (viewport_item E vp 3) (to_num E (field axis' "scale")) in
  field st0 "range" = VNum range0 ->
  field st0 "offset" = VNum (anchored_offset E axis (VNum range0)) ->
  field st1 "range" = VNum range1 ->
  field st1 "offset" = VNum (anchored_offset E axis' (VNum range1)) ->
  ndiv (nsub (e_y e) (viewport_item E vp 1)) (viewport_item E vp 3) = Fin f ->
  getRatio_y_body E [v; VObj st0] = Some (vnum f) ->
  getRatio_y_body E [v; VObj st1] = Some (vnum f') ->
  f' = f.
Proof.
  intros Hd Hz Hpan Hc axis' range0 range1 Hr0 Ho0 Hr1 Ho1 Hptr Hb Ha.
  assert (Hc01 : 0 <= 1 # 2 <= 1) by lra.
  assert (Hrange0 : range0 = nmul (viewport_item E vp 3) (to_num E (field axis "scale")))
    by done.
  assert (Hrange1 : range1 = nmul (viewport_item E vp 3) (to_num E (field axis' "scale")))
    by done.
  clearbody range0 range1.
  (* the fragment and the merged configuration *)
  assert (Hfrag : transform_y E axis vp e
                  = zoom_axis E axis (viewport_item E vp 3)
                      (zoom_of e (viewport_item E vp 3))
                      (nsub (to_num E (js_or (field axis "origin") (vnum 0)))
                            (ndiv (nsub (e_y e) (viewport_item E vp 1)) (viewport_item E vp 3)))
                      (pan_y E axis e (fragment_of axis))).
  { unfold transform_y. by rewrite Hd. }
  destruct (zoom_axis_fields axis (viewport_item E vp 3)
              (zoom_of e (viewport_item E vp 3))
              (nsub (to_num E (js_or (field axis "origin") (vnum 0)))
                    (ndiv (nsub (e_y e) (viewport_item E vp 1)) (viewport_item E vp 3)))
              (pan_y E axis e (fragment_of axis)) Hz) as [Hfs Hfo].
  rewrite <- Hfrag in Hfs, Hfo. cbn zeta in Hfs, Hfo.
  assert (Hprev : field (pan_y E axis e (fragment_of axis)) "scale" = field axis "scale").
  { unfold field. rewrite pan_y_lookup by done. unfold fragment_of.
    by rewrite lookup_insert_eq. }
  rewrite Hprev in Hfs, Hfo.
  set (scale' := clamp _ _ _) in Hfs, Hfo.
  assert (Hs1 : field axis' "scale" = VNum scale') by by apply field_union_l.
  assert (Ho1' : field axis' "offset" = _) by (apply field_union_l; exact Hfo).
  assert (Hor1 : field axis' "origin" = vnum (1 # 2)).
  { unfold axis'. rewrite field_union_r; [done|].
    by apply (transform_lookup E AY). }
  (* before the event *)
  pose proof (getRatio_y_Fin _ _ _ _ _ Ho0 Hr0 Hb) as Hb'.
  pose proof Hb' as Hb2.
  apply nsub_Fin_inv in Hb2 as (one & q0 & _ & Hq0 & _ & _).
  destruct (ndiv_Fin_num _ _ _ Hq0) as (n0 & Hn0).
  apply nsub_Fin_inv in Hn0 as (tv & so & Htv & Hso & _ & _).
  unfold anchored_offset in Hso. rewrite Hc in Hso. cbn [to_num vnum] in Hso.
  apply nsub_Fin_inv in Hso as (o & m0 & Ho & Hm0 & Hso & _).
  apply nmul_Fin_inv in Hm0 as (R & c0 & HR & Hc0 & Hm0 & _).
  destruct (clamp_unit (1 # 2) Hc01) as (c1 & Hc1 & Hc1').
  rewrite Hc1 in Hc0. injection Hc0 as <-.
  pose proof HR as HR2. rewrite Hrange0 in HR2.
  apply nmul_Fin_inv in HR2 as (w & s & Hw & Hs & HRws & _).
  rewrite HR in Hb'. unfold anchored_offset in Hb'.
  rewrite Hc, Ho in Hb'. cbn [to_num vnum] in Hb'. rewrite Hc1, Htv in Hb'.
  (* after the event *)
  pose proof (getRatio_y_Fin _ _ _ _ _ Ho1 Hr1 Ha) as Ha'.
  pose proof Ha' as Ha2.
  apply nsub_Fin_inv in Ha2 as (one' & q1 & _ & Hq1 & _ & _).
  destruct (ndiv_Fin_num _ _ _ Hq1) as (n1 & Hn1).
  rewrite Htv in Hn1.
  apply nsub_Fin_inv in Hn1 as (tv' & so' & [= <-] & Hso' & _ & _).
  unfold anchored_offset in Hso'. rewrite Hor1, Ho1' in Hso'.
  cbn [to_num vnum] in Hso'. rewrite Hc1 in Hso'.
  apply nsub_Fin_inv in Hso' as (o' & m1 & Ho' & Hm1 & Hso' & _).
  apply nmul_Fin_inv in Hm1 as (R' & c2 & HR' & [= <-] & Hm1 & _).
  pose proof HR' as HR2'. rewrite Hrange1, Hs1, Hw in HR2'.
  cbn [to_num] in HR2'.
  apply nmul_Fin_inv in HR2' as (w' & s' & [= <-] & Hs' & HRws' & _).
  (* the new offset *)
  pose proof Ho' as EqO'.
  rewrite Hptr, Hs', Hs, Hw in Ho'.
  apply nsub_Fin_inv in Ho' as (p0 & x0 & Hp0 & Hx0 & Ho' & _).
  apply nmul_Fin_inv in Hx0 as (y0 & t0 & Hy0 & Ht0 & Hx0 & _).
  apply nmul_Fin_inv in Hy0 as (w2 & d0 & [= <-] & Hd0 & Hy0 & _).
  apply nsub_Fin_inv in Hd0 as (s2 & s3 & [= <-] & [= <-] & Hd0 & _).
  rewrite Hc in Ht0. destruct (origin_or_zero (1 # 2)) as (c3 & Hc3 & Hc3').
  rewrite Hc3 in Ht0.
  apply nsub_Fin_inv in Ht0 as (c4 & f0 & [= <-] & [= <-] & Ht0 & _).
  pose proof (pan_y_still axis e o s Ho Hs Hpan p0 Hp0) as Hp0'.
  (* the two ratios *)
  unfold anchored_offset in Ha'. rewrite Ho1', Hor1 in Ha'.
  cbn [to_num vnum] in Ha'. rewrite Htv, EqO', HR', Hc1 in Ha'.
  apply nsub_Fin_inv in Hb' as (one1 & qb & [= <-] & Hqb & Hfb & Hfc).
  apply ndiv_Fin_inv in Hqb as (nb & Hnb & HR0 & Hqb & _).
  apply nsub_Fin_inv in Hnb as (tv1 & sb & [= <-] & Hsb & Hnb & _).
  apply nsub_Fin_inv in Hsb as (o1 & mb & [= <-] & Hmb & Hsb & _).
  apply nmul_Fin_inv in Hmb as (R1 & c5 & [= <-] & [= <-] & Hmb & _).
  apply nsub_Fin_inv in Ha' as (one2 & qa & [= <-] & Hqa & Hfa & Hfc').
  apply ndiv_Fin_inv in Hqa as (na & Hna & HR0' & Hqa & _).
  apply nsub_Fin_inv in Hna as (tv2 & sa & [= <-] & Hsa & Hna & _).
  apply nsub_Fin_inv in Hsa as (o2 & ma & [= <-] & Hma & Hsa & _).
  apply nmul_Fin_inv in Hma as (R2 & c6 & [= <-] & [= <-] & Hma & _).
  rewrite <- Hfc, <- Hfc'. apply Qred_complete.
  apply (focal_algebra_y o o' s s' w c1 f tv R R' sb sa f f'); try done.
  - rewrite Hsb, Hmb. reflexivity.
  - rewrite Hsa, Hma. reflexivity.
  - rewrite Ho', Hp0', Hx0, Hy0, Hd0, Ht0, Hc3', Hc1'. reflexivity.
  - rewrite Hfb, Hqb, Hnb. reflexivity.
  - rewrite Hfa, Hqa, Hna. reflexivity.
Qed.

End Focal.

(** ** Further properties of [calcLines] *)

Section CalcLinesMore.

Variable E : env.

#[local] Instance index_le_trans : Transitive index_le.
Proof. intros a b c. unfold index_le. lia. Qed.

#[local] Instance index_le_total : Total index_le.
Proof. intros a b. unfold index_le. lia. Qed.

(** The enumeration visits every property once. *)
Lemma for_in_Permutation (o : obj) : for_in o ≡ₚ map_to_list o.
Proof. unfold for_in. rewrite merge_sort_Permutation. apply filter_app_complement. Qed.

(** When every property name is an array index, the enumeration is in
    ascending order of the indices. *)
Lemma for_in_sorted (o : obj) :
  map_Forall (fun key _ => is_Some (index_of key)) o ->
  StronglySorted index_le (for_in o).
Proof.
  intros Ho. apply map_Forall_to_list in Ho. unfold for_in.
  assert (Hnone : filter (fun kv => ~ is_index kv) (map_to_list o) = []).
  { induction Ho as [|[key v] l Hkv _ IH]; [done|].
    rewrite filter_cons_False; [done|]. intros Hn. by apply Hn. }
  rewrite Hnone, app_nil_r. apply StronglySorted_merge_sort; apply _.
Qed.

(** X12. When the labels come from a function that returns a value-to-label
    mapping whose keys are array indices, and the ticks are a literal array,
    the parsed keys of the mapping are appended, in ascending order of the
    keys, to the state values and to the configured [lines] array itself,
    and the labels are one null per original tick followed by the mapped
    labels in that same order. *)
Theorem mapping_labels_extend_ticks grid lines vp st lines' vs f (m : obj) :
  calcLines E grid lines vp = Some (st, lines') ->
  field lines "lines" = VArr vs ->
  field lines "labels" = VFun f ->
  (forall args, call E f args = Some (VObj m)) ->
  map_Forall (fun key _ => is_Some (index_of key)) m ->
  exists entries,
    entries ≡ₚ map_to_list m /\
    StronglySorted index_le entries /\
    let extra := (fun kv => VNum (parseFloat E kv.1)) <$> entries in
    field lines' "lines" = VArr (vs ++ extra) /\
    st !! "values" = Some (VArr (vs ++ extra)) /\
    st !! "labels" = Some (VArr (replicate (length vs) VNull ++ (snd <$> entries))).
Proof.
  intros H Hf Hlab Hcall Hidx.
  exists (for_in m). split; [apply for_in_Permutation|].
  split; [by apply for_in_sorted|]. intros extra.
  apply calcLines_Some in H.
  destruct H as (range & padding & fontSize & values & subvalues & st1 & labels
                 & _ & _ & _ & Hv & _ & Hl & Hm).
  cbn zeta in *.
  unfold resolve_values in Hv. rewrite Hf in Hv. injection Hv as <-.
  unfold resolve_labels in Hl. rewrite Hlab in Hl. cbn in Hl.
  rewrite Hcall in Hl. injection Hl as <-.
  unfold convert_mapping in Hm. cbn [js_or truthy] in Hm.
  apply bind_Some in Hm as (nulls & Hn & Hm).
  apply bind_Some in Hm as ([values' labels'] & Hp & Hm).
  apply null_labels_array in Hn as ->.
  rewrite Hf in Hm. injection Hm as <- <-.
  assert (values' = VArr (vs ++ extra)
          /\ labels' = VArr (replicate (length vs) VNull ++ (snd <$> for_in m)))
    as [-> ->].
  { unfold push_mapping, filled in Hp. fold extra in Hp.
    unfold extra in *. destruct (for_in m); injection Hp as <- <-;
      by rewrite ?app_nil_r. }
  split; [|split].
  - unfold field. by rewrite lookup_insert_eq.
  - by rewrite lookup_insert_ne, lookup_insert_eq.
  - by rewrite lookup_insert_ne, lookup_insert_ne, lookup_insert_eq.
Qed.

(** X13. A value-to-label mapping given literally as [labels] is not
    converted: the labels are null, one per tick, and ticks and
    configuration stay as they are. *)
Theorem literal_mapping_labels_ignored grid lines vp st lines' vs (m : obj) :
  calcLines E grid lines vp = Some (st, lines') ->
  field lines "labels" = VObj m ->
  st !! "values" = Some (VArr vs) ->
  st !! "labels" = Some (VArr (replicate (length vs) VNull)) /\ lines' = lines.
Proof.
  intros H Hlab Hvs.
  split; [|apply (calcLines_keeps_config E _ _ _ _ _ H); right; by rewrite Hlab].
  destruct (calcLines_labels _ _ _ _ _ _ H)
    as (values & labels & st2 & st3 & Hl & Hv3 & Hl3 & Hm).
  unfold resolve_labels in Hl. rewrite Hlab in Hl. cbn in Hl.
  assert (exists ns, labels = VArr ns) as (ns & ->).
  { unfold null_labels in Hl. destruct values; try done;
      apply bind_Some in Hl as (len & _ & Hl); unfold Array_fill_null in Hl;
      repeat case_match; try done; injection Hl as <-; unfold filled; eauto. }
  injection Hm as <- _. rewrite Hv3 in Hvs. injection Hvs as ->.
  apply null_labels_array in Hl. by rewrite Hl3, Hl.
Qed.

(** X10. The automatic sublines: the generator is invoked a second time on a
    state whose [scale] is NaN ([state.scale] is not set, so a third of it
    is NaN), the result is filtered against the values, and the state is
    left with [scale] undefined. *)
Theorem auto_sublines_scale grid lines vp st lines' f :
  calcLines E grid lines vp = Some (st, lines') ->
  field lines "lines" = VFun f ->
  field lines "sublines" = VBool true \/ field lines "sublines" = VUndef ->
  st !! "scale" = Some VUndef /\
  exists (pass : obj) values generated subvalues,
    pass !! "scale" = Some (VNum NaN) /\
    pass !! "values" = Some values /\
    call E f [VObj pass] = Some generated /\
    filter_present values generated = Some subvalues /\
    st !! "subvalues" = Some subvalues.
Proof.
  intros H Hl Hs. apply calcLines_Some in H.
  destruct H as (range & padding & fontSize & values & subvalues & st1 & labels
                 & _ & _ & _ & _ & Hsv & _ & Hm).
  cbn zeta in *.
  set (s1 := <["values" := values]> _) in Hsv.
  assert (Hno : field s1 "scale" = VUndef).
  { unfold field, s1. rewrite !lookup_insert_ne by done.
    by rewrite resolve_style_no_scale. }
  destruct (resolve_subvalues_auto E _ _ _ _ _ _ Hsv Hl Hs Hno) as (generated & Hg & Hf & ->).
  split.
  - rewrite (convert_mapping_lookup _ _ _ _ _ _ _ _ Hm) by done.
    rewrite !lookup_insert_ne by done. by rewrite lookup_insert_eq.
  - exists (<["scale" := VNum NaN]> s1), values, generated, subvalues.
    split; [by rewrite lookup_insert_eq|].
    split; [unfold s1; rewrite lookup_insert_ne by done; by rewrite lookup_insert_eq|].
    split; [done|]. split; [done|].
    rewrite (convert_mapping_lookup _ _ _ _ _ _ _ _ Hm) by done.
    rewrite lookup_insert_ne by done. by rewrite lookup_insert_eq.
Qed.

(** X11. In the automatic subline case [calcLines] throws when the result
    of the generator has no [filter] to call: a number, a string, a
    boolean, [null], [undefined], a function, or a plain object without a
    callable [filter] of its own. *)
Theorem auto_sublines_need_array grid lines vp f :
  field lines "lines" = VFun f ->
  field lines "sublines" = VBool true \/ field lines "sublines" = VUndef ->
  (forall args r, call E f args = Some r -> has_filter r = false) ->
  calcLines E grid lines vp = None.
Proof.
  intros Hl Hs Hbad.
  destruct (calcLines E grid lines vp) as [[st lines']|] eqn:H; [|done].
  apply calcLines_Some in H.
  destruct H as (range & padding & fontSize & values & subvalues & st1 & labels
                 & _ & _ & _ & _ & Hsv & _ & _).
  cbn zeta in *.
  set (s1 := <["values" := values]> _) in Hsv.
  assert (Hno : field s1 "scale" = VUndef).
  { unfold field, s1. rewrite !lookup_insert_ne by done.
    by rewrite resolve_style_no_scale. }
  destruct (resolve_subvalues_auto E _ _ _ _ _ _ Hsv Hl Hs Hno) as (generated & Hg & Hf & _).
  apply Hbad in Hg. unfold filter_present in Hf. by destruct generated.
Qed.

End CalcLinesMore.

(** ** NaN-free offsets *)

Section NotNaN.

Variable E : env.

Lemma norm_not_nan q : is_nan (norm q) = false.
Proof. by destruct (norm_cases q) as [-> | [-> | ->]]. Qed.

Lemma Math_max_nan a b : is_nan a = false -> is_nan b = false -> is_nan (Math_max a b) = false.
Proof. destruct a, b; cbn; try done; intros _ _; by destruct (Qlt_bool _ _). Qed.

Lemma Math_min_nan a b : is_nan a = false -> is_nan b = false -> is_nan (Math_min a b) = false.
Proof. destruct a, b; cbn; try done; intros _ _; by destruct (Qlt_bool _ _). Qed.

Lemma clamp_not_nan a lo hi :
  is_nan a = false -> is_nan lo = false -> is_nan hi = false ->
  is_nan (clamp a lo hi) = false.
Proof.
  intros. unfold clamp. destruct (ngt hi lo); auto using Math_max_nan, Math_min_nan.
Qed.

Lemma nsub_Fin_not_nan_l q b : is_nan b = false -> is_nan (nsub (Fin q) b) = false.
Proof. destruct b; cbn; try done. intros _. apply norm_not_nan. Qed.

Lemma nsub_Fin_not_nan_r a q : is_nan a = false -> is_nan (nsub a (Fin q)) = false.
Proof. destruct a; cbn; try done. intros _. apply norm_not_nan. Qed.

Lemma clamp_unit_Fin a : is_nan a = false -> exists c, clamp a (Fin 0) (Fin 1) = Fin c.
Proof.
  destruct a as [| | |q]; try done; intros _; cbn; eauto.
  unfold clamp, ngt, Math_max, Math_min. cbn.
  repeat (destruct (Qlt_bool _ _); cbn); eauto.
Qed.

(** X9. When the range is a finite number, the stored offset is finite and
    origin, min and max are not NaN, the offset of the state is not NaN. *)
Theorem state_offset_not_nan grid lines vp st lines' (r : Q) :
  calcLines E grid lines vp = Some (st, lines') ->
  field st "range" = VNum (Fin r) ->
  is_finite (to_num E (field lines "offset")) = true ->
  is_nan (to_num E (field lines "origin")) = false ->
  is_nan (to_num E (field lines "min")) = false ->
  is_nan (to_num E (field lines "max")) = false ->
  exists offset, field st "offset" = VNum offset /\ is_nan offset = false.
Proof.
  intros H Hr Hoff Hor Hmin Hmax.
  destruct (calcLines_style_key _ _ _ _ _ _ "range" H) as (range & Hcall & Hrange).
  { solve_not_in. }
  destruct (calcLines_style_key _ _ _ _ _ _ "offset" H) as (range' & Hcall' & Hoffset).
  { solve_not_in. }
  assert (range' = range) as -> by congruence.
  assert (range = VNum (Fin r)) as ->.
  { unfold field in Hr. by rewrite Hrange, resolve_style_range in Hr. }
  rewrite resolve_style_offset in Hoffset.
  eexists. unfold field. rewrite Hoffset. split; [done|].
  unfold resolve_offset, anchored_offset. cbn [to_num].
  destruct (to_num E (field lines "offset")) as [| | |o]; try done.
  destruct (clamp_unit_Fin _ Hor) as (c & ->).
  apply clamp_not_nan.
  - apply nsub_Fin_not_nan_l. cbn. apply norm_not_nan.
  - apply Math_max_nan; [done|]. cbn. apply norm_not_nan.
  - apply nsub_Fin_not_nan_r. by apply Math_min_nan.
Qed.

End NotNaN.

(** ** Further properties of [update] and of the handler *)

Section UpdateMore.

Variable E : env.

(** X5. [update] throws when the x or the y configuration has no callable
    [getRange], whether or not that axis is disabled: [calcLines] calls it
    unconditionally. *)
Theorem update_needs_getRange g opts (k : axis_id) :
  k = AX \/ k = AY ->
  is_function (field (axis_of (merge_opts E g opts) k) "getRange") = false ->
  update E g opts = None.
Proof.
  intros Hk Hf.
  destruct (update E g opts) as [g'|] eqn:H; [|done].
  destruct (update_state _ _ _ _ k H Hk) as (grid & cfg & Hc & Hn).
  apply calcLines_Some in Hc as (range & _ & _ & _ & _ & _ & _ & Hcall & _).
  unfold call_method in Hcall.
  assert (Hsame : field cfg "getRange"
                  = field (axis_of (merge_opts E g opts) k) "getRange").
  { unfold field. by rewrite (normalize_lookup _ _ _ _ "getRange" Hn). }
  rewrite Hsame in Hcall.
  by destruct (field (axis_of (merge_opts E g opts) k) "getRange").
Qed.

(** [update] computes a state for x and for y and for nothing else. *)
Lemma update_state_dom g opts g' :
  update E g opts = Some g' ->
  dom (this_state g') = {[ "x"; "y" ]} ∪ dom (this_state g).
Proof.
  intros H. apply update_Some in H.
  destruct H as (x & y & sx & x' & sy & y' & gx & gy & _ & _ & _ & _ & ->).
  cbn. rewrite !dom_insert_L.
  apply set_eq. intros s. rewrite !elem_of_union. tauto.
Qed.

(** X3. After construction the rendering state holds exactly the states of x
    and y, whatever axes the options enable: r and a never get a state. *)
Theorem constructor_state_keys vp opts g :
  Grid_new E vp opts = Some g ->
  dom (this_state g) = {[ "x"; "y" ]}.
Proof.
  unfold Grid_new. intros H%update_state_dom. rewrite H. cbn.
  rewrite dom_empty_L. apply (right_id_L ∅ (∪)).
Qed.

(** The merged configuration of an axis after the handler built its
    fragment. *)
Lemma on_panzoom_merge g e (k : axis_id) :
  k = AX \/ k = AY ->
  let frag := match k with
              | AX => transform_x E (this_x g) (this_viewport g) e
              | _ => transform_y E (this_y g) (this_viewport g) e
              end in
  axis_of (merge_opts E g
             (VObj (<["x" := VObj (transform_x E (this_x g) (this_viewport g) e)]>
                      {[ "y" := VObj (transform_y E (this_y g) (this_viewport g) e) ]}))) k
  = frag ∪ axis_of g k.
Proof.
  intros Hk frag. rewrite merge_opts_axis.
  assert (Hfrag : field (<["x" := VObj (transform_x E (this_x g) (this_viewport g) e)]>
                           {[ "y" := VObj (transform_y E (this_y g) (this_viewport g) e) ]})
                        (axis_key k) = VObj frag).
  { unfold field, frag. destruct Hk as [-> | ->]; cbn [axis_key].
    - by rewrite lookup_insert_eq.
    - by rewrite lookup_insert_ne, lookup_singleton_eq. }
  rewrite Hfrag. unfold take_type, extend_props.
  assert (Ht : field frag "type" = VUndef).
  { unfold field, frag. pose proof (transform_lookup E k) as Hl.
    destruct Hk as [-> | ->].
    - by rewrite (Hl (this_x g)).
    - by rewrite (Hl (this_y g)). }
  rewrite Ht. cbn [truthy]. by rewrite extend_cons, extend_nil.
Qed.

(** X18. A pan/zoom event leaves a disabled axis where it is: every field of
    its configuration (the [lines] array apart, which [calcLines] may
    extend) reads as before the event. *)
Theorem panzoom_skips_disabled g e g' (k : axis_id) (key : string) :
  on_panzoom E g e = Some g' ->
  k = AX \/ k = AY ->
  truthy (field (axis_of g k) "disabled") = true ->
  key <> "lines" ->
  field (axis_of g' k) key = field (axis_of g k) key.
Proof.
  unfold on_panzoom. intros H Hk Hd Hkey.
  pose proof (on_panzoom_merge g e k Hk) as Hm. cbn zeta in Hm.
  set (opts := VObj _) in *.
  assert (Hfrag : match k with
                  | AX => transform_x E (this_x g) (this_viewport g) e
                  | _ => transform_y E (this_y g) (this_viewport g) e
                  end = fragment_of (axis_of g k)).
  { destruct Hk as [-> | ->]; cbn [axis_of] in *;
      unfold transform_x, transform_y; by rewrite Hd. }
  rewrite Hfrag in Hm.
  assert (Hfield : forall key', field (axis_of (merge_opts E g opts) k) key'
                                = field (axis_of g k) key').
  { intros key'. rewrite Hm. unfold field, fragment_of.
    destruct (decide (key' = "scale")) as [-> | Hs].
    { erewrite lookup_union_Some_l; [|apply lookup_insert_eq]. done. }
    destruct (decide (key' = "offset")) as [-> | Ho].
    { erewrite lookup_union_Some_l;
        [|rewrite lookup_insert_ne by done; apply lookup_singleton_eq]. done. }
    rewrite lookup_union_r; [done|].
    by rewrite lookup_insert_ne, lookup_singleton_ne. }
  destruct (update_state _ _ _ _ k H Hk) as (grid & cfg & Hc & Hn).
  unfold normalize in Hn. rewrite Hfield, Hd in Hn. injection Hn as <-.
  unfold field at 1. rewrite (calcLines_config _ _ _ _ _ _ key Hc) by done.
  apply Hfield.
Qed.

(** X17. With [zoom: false] a pan/zoom event never changes the scale of the
    axis. *)
Theorem zoom_false_keeps_scale g e g' (k : axis_id) :
  on_panzoom E g e = Some g' ->
  k = AX \/ k = AY ->
  strict_eq (field (axis_of g k) "zoom") (VBool false) = true ->
  field (axis_of g' k) "scale" = field (axis_of g k) "scale".
Proof.
  intros H Hk Hz. unfold field at 1.
  rewrite (on_panzoom_scale _ _ _ _ _ H Hk (field (axis_of g k) "scale")); [done|].
  assert (Hfs : fragment_of (axis_of g k) !! "scale" = Some (field (axis_of g k) "scale")).
  { unfold fragment_of. apply lookup_insert_eq. }
  destruct Hk as [-> | ->]; cbn [axis_of] in *;
    unfold transform_x, transform_y, zoom_axis; rewrite Hz;
    destruct (truthy _); try done;
    by rewrite ?pan_x_lookup, ?pan_y_lookup.
Qed.

End UpdateMore.

(** ** The zoom factor *)

Section ZoomFactor.
Local Open Scope Q_scope.

Variable E : env.

Lemma MAX_VALUE_ge_1 : 1 <= MAX_VALUE.
Proof. unfold Qle. by vm_compute. Qed.

Lemma norm_Fin q : - MAX_VALUE <= q <= MAX_VALUE -> norm q = Fin (Qred q).
Proof.
  intros [Hl Hu]. unfold norm.
  destruct (Qlt_bool_reflect MAX_VALUE q); [lra|].
  destruct (Qlt_bool_reflect q (- MAX_VALUE)); [lra|done].
Qed.

Lemma nle_Fin_inv a (l u : Q) :
  nle (Fin l) a = true -> nle a (Fin u) = true -> exists c, a = Fin c /\ l <= c <= u.
Proof.
  destruct a as [| | |c]; try done. cbn. intros H1 H2. exists c. split; [done|].
  destruct (Qle_bool_reflect l c), (Qle_bool_reflect c u); done.
Qed.

(** With exact products and an exact quotient, the zoom factor of an event
    lies between -3/4 and 3/4 for every positive height. *)
Lemma zoom_of_exact e (h : Q) :
  0 < h -> h <= MAX_VALUE -> is_nan (e_dz e) = false ->
  exists z, zoom_of e (Fin h) = Fin z /\ - (3 # 4) <= z <= 3 # 4.
Proof.
  intros Hh Hmax Hdz. unfold zoom_of. pose proof MAX_VALUE_ge_1 as HM.
  assert (Hlo : nmul (nneg (Fin h)) (Fin (3 # 4)) = Fin (Qred (Qred (- h) * (3 # 4)))).
  { cbn. apply norm_Fin. rewrite Qred_correct. lra. }
  assert (Hhi : nmul (Fin h) (Fin (3 # 4)) = Fin (Qred (h * (3 # 4)))).
  { cbn. apply norm_Fin. lra. }
  rewrite Hlo, Hhi.
  set (l := Qred (Qred (- h) * (3 # 4))). set (u := Qred (h * (3 # 4))).
  assert (Hl : l == - (3 # 4) * h) by (unfold l; rewrite !Qred_correct; ring).
  assert (Hu : u == (3 # 4) * h) by (unfold u; rewrite !Qred_correct; ring).
  assert (Hlu : nle (Fin l) (Fin u) = true).
  { cbn. destruct (Qle_bool_reflect l u); [done|lra]. }
  assert (Ha : is_nan (nneg (e_dz e)) = false) by by destruct (e_dz e).
  destruct (clamp_bounds _ _ _ Ha Hlu) as [H1 H2].
  destruct (nle_Fin_inv _ _ _ H1 H2) as (c & -> & Hc1 & Hc2).
  assert (Hq : - (3 # 4) <= c / h <= 3 # 4).
  { split.
    - apply Qle_shift_div_l; [done|]. lra.
    - apply Qle_shift_div_r; [done|]. lra. }
  exists (Qred (c / h)). split.
  - cbn. destruct (Qis_zero_reflect h); [lra|]. apply norm_Fin. lra.
  - rewrite Qred_correct. done.
Qed.

(** X14. The zoom factor of an event lies between -3/4 and 3/4, for every
    wheel delta, when the height of the viewport is a whole number of
    pixels (below 2^51): one event multiplies the scale by a factor between
    1/4 and 7/4 before the scale clamp.  For such a height three quarters
    of it is computed without rounding by the source as well. *)
Theorem zoom_of_bounded e (n : Z) :
  (0 < n <= 2 ^ 51)%Z -> is_nan (e_dz e) = false ->
  exists z, zoom_of e (Fin (inject_Z n)) = Fin z /\ - (3 # 4) <= z <= 3 # 4.
Proof.
  intros [Hn Hmax] Hdz. apply zoom_of_exact; [| |done].
  - change 0 with (inject_Z 0). rewrite <- Zlt_Qlt. done.
  - apply Qle_trans with (inject_Z (2 ^ 51)); [by rewrite <- Zle_Qle|].
    unfold Qle. by vm_compute.
Qed.

(** On a viewport of height zero the zoom factor is NaN, for every wheel
    delta. *)
Lemma zoom_of_zero_height e (h : Q) :
  h == 0 -> is_nan (e_dz e) = false -> zoom_of e (Fin h) = NaN.
Proof.
  intros Hh Hdz. unfold zoom_of. pose proof MAX_VALUE_ge_1 as HM.
  assert (Hlo : nmul (nneg (Fin h)) (Fin (3 # 4)) = Fin (Qred (Qred (- h) * (3 # 4)))).
  { cbn. apply norm_Fin. rewrite Qred_correct. lra. }
  assert (Hhi : nmul (Fin h) (Fin (3 # 4)) = Fin (Qred (h * (3 # 4)))).
  { cbn. apply norm_Fin. lra. }
  rewrite Hlo, Hhi.
  set (l := Qred (Qred (- h) * (3 # 4))). set (u := Qred (h * (3 # 4))).
  assert (Hl : l == 0) by (unfold l; rewrite !Qred_correct; lra).
  assert (Hu : u == 0) by (unfold u; rewrite !Qred_correct; lra).
  assert (Hlu : nle (Fin l) (Fin u) = true).
  { cbn. destruct (Qle_bool_reflect l u); [done|lra]. }
  assert (Ha : is_nan (nneg (e_dz e)) = false) by by destruct (e_dz e).
  destruct (clamp_bounds _ _ _ Ha Hlu) as [H1 H2].
  destruct (nle_Fin_inv _ _ _ H1 H2) as (c & -> & Hc1 & Hc2).
  cbn. destruct (Qis_zero_reflect h); [|done].
  destruct (Qis_zero_reflect c); [done|lra].
Qed.

Lemma clamp_NaN lo hi : clamp NaN lo hi = NaN.
Proof. unfold clamp. by destruct (ngt hi lo), lo, hi. Qed.

Lemma nmul_NaN_r a : nmul a NaN = NaN.
Proof. by destruct a. Qed.

(** X15. On a viewport of height zero, a pan/zoom event stores NaN as the
    scale of every enabled axis whose zoom is active, whatever the wheel
    delta and the scale limits. *)
Theorem zero_height_scale_nan g e g' (k : axis_id) (h : Q) :
  on_panzoom E g e = Some g' ->
  k = AX \/ k = AY ->
  truthy (field (axis_of g k) "disabled") = false ->
  strict_eq (field (axis_of g k) "zoom") (VBool false) = false ->
  viewport_item E (this_viewport g) 3 = Fin h -> h == 0 ->
  is_nan (e_dz e) = false ->
  field (axis_of g' k) "scale" = VNum NaN.
Proof.
  intros H Hk Hd Hz Hvp Hh Hdz. unfold field.
  rewrite (on_panzoom_scale _ _ _ _ _ H Hk (VNum NaN)); [done|].
  pose proof (transform_scale E k (axis_of g k) (this_viewport g) e Hk Hd Hz) as Ht.
  cbn zeta in Ht. rewrite Hvp, (zoom_of_zero_height e h Hh Hdz) in Ht.
  change (nsub (Fin 1) NaN) with NaN in Ht.
  rewrite nmul_NaN_r, clamp_NaN in Ht.
  destruct Hk as [-> | ->]; exact Ht.
Qed.

Lemma clamp_inside (s' s : Q) lo hi :
  s' == s -> nle lo (Fin s) = true -> nle (Fin s) hi = true ->
  neqb (clamp (Fin s') lo hi) (Fin s) = true.
Proof.
  intros Hs H1 H2. unfold clamp, ngt, Math_max, Math_min.
  destruct lo as [| | |l], hi as [| | |u]; try done; cbn in *.
  all: repeat (match goal with
               | |- context [Qlt_bool ?a ?b] => destruct (Qlt_bool_reflect a b); cbn
               | H : Qle_bool ?a ?b = true |- _ => apply Qle_bool_iff in H
               end).
  all: apply Qeq_bool_iff; lra.
Qed.

(** X16. An event without wheel delta leaves a scale that is within its
    limits numerically unchanged. *)
Theorem drag_keeps_scale (k : axis_id) axis vp e (h s : Q) :
  k = AX \/ k = AY ->
  truthy (field axis "disabled") = false ->
  strict_eq (field axis "zoom") (VBool false) = false ->
  e_dz e = Fin 0 ->
  viewport_item E vp 3 = Fin h -> 0 < h ->
  to_num E (field axis "scale") = Fin s -> - MAX_VALUE <= s <= MAX_VALUE ->
  nle (to_num E (field axis "minScale")) (Fin s) = true ->
  nle (Fin s) (to_num E (field axis "maxScale")) = true ->
  exists scale,
    match k with AX => transform_x E axis vp e | _ => transform_y E axis vp e end !! "scale"
    = Some (VNum scale) /\
    neqb scale (Fin s) = true.
Proof.
  intros Hk Hd Hz Hdz Hvp Hh Hs Hsb Hmin Hmax.
  pose proof (transform_scale E k axis vp e Hk Hd Hz) as Ht. cbn zeta in Ht.
  eexists. split; [exact Ht|]. rewrite Hvp, Hs. pose proof MAX_VALUE_ge_1 as HM.
  assert (Hzoom : exists z, zoom_of e (Fin h) = Fin z /\ z == 0).
  { unfold zoom_of. rewrite Hdz.
    assert (Ha : is_nan (nneg (Fin 0)) = false) by done.
    set (lo := nmul _ _). set (hi := nmul (Fin h) _).
    assert (Hlo : nle lo (Fin 0) = true).
    { unfold lo. cbn. destruct (norm_cases (Qred (- h) * (3 # 4))) as [Hn | [-> | Hn]];
        rewrite ?Hn; try done.
      - exfalso. revert Hn. unfold norm.
        destruct (Qlt_bool_reflect MAX_VALUE (Qred (- h) * (3 # 4))) as [Hc|];
          [rewrite Qred_correct in Hc; lra|]. by destruct (Qlt_bool _ _).
      - cbn. destruct (Qle_bool_reflect (Qred (Qred (- h) * (3 # 4))) 0) as [|Hc];
          [done|]. rewrite !Qred_correct in Hc. lra. }
    assert (Hhi : nle (Fin 0) hi = true).
    { unfold hi. cbn. destruct (norm_cases (h * (3 # 4))) as [-> | [Hn | Hn]];
        rewrite ?Hn; try done.
      - exfalso. revert Hn. unfold norm.
        destruct (Qlt_bool _ _); [done|].
        destruct (Qlt_bool_reflect (h * (3 # 4)) (- MAX_VALUE)); [lra|done].
      - cbn. destruct (Qle_bool_reflect 0 (Qred (h * (3 # 4)))) as [|Hc];
          [done|]. rewrite !Qred_correct in Hc. lra. }
    pose proof (clamp_inside (Qred (- 0)) 0 lo hi) as Hc.
    change (nneg (Fin 0)) with (Fin (Qred (- 0))).
    destruct (clamp (Fin (Qred (- 0))) lo hi) as [| | |c] eqn:Hcl;
      try (by specialize (Hc ltac:(done) Hlo Hhi)).
    specialize (Hc ltac:(done) Hlo Hhi). cbn in Hc. apply Qeq_bool_iff in Hc.
    exists (Qred (c / h)). split.
    - cbn. destruct (Qis_zero_reflect h); [lra|]. apply norm_Fin.
      rewrite Hc. unfold Qdiv. lra.
    - rewrite Qred_correct, Hc. unfold Qdiv. lra. }
  destruct Hzoom as (z & -> & Hz0).
  assert (H1 : nsub (Fin 1) (Fin z) = Fin (Qred (1 + Qred (- z)))).
  { cbn. apply norm_Fin. rewrite Qred_correct, Hz0. lra. }
  rewrite H1.
  assert (H2 : nmul (Fin s) (Fin (Qred (1 + Qred (- z))))
               = Fin (Qred (s * Qred (1 + Qred (- z))))).
  { cbn. apply norm_Fin. rewrite !Qred_correct, Hz0.
    setoid_replace (s * (1 + - 0)) with s using relation Qeq by ring. done. }
  rewrite H2. apply clamp_inside; [|done..].
  rewrite !Qred_correct, Hz0. ring.
Qed.

End ZoomFactor.

(** ** Further properties of the constructor *)

Section ConstructorMore.

Variable E : env.

Lemma all_omitted_present opts (k : axis_id) :
  is_nullish (field opts (axis_key k)) = false -> default_coords opts = opts.
Proof.
  intros H. unfold default_coords, all_omitted.
  destruct k; cbn [axis_key] in H; rewrite H; by rewrite ?andb_false_r.
Qed.

Lemma take_type_truthy v : truthy (take_type E v) = truthy v.
Proof.
  unfold take_type. destruct v as [| | | | | |o|]; try done.
  by destruct (truthy (field o "type")).
Qed.

Lemma falsy_no_props v : truthy v = false -> take_type E v = v /\ own_props v = ∅.
Proof.
  destruct v as [| |b|n|s| | |]; try done.
  cbn. destruct s; [done|]. by cbn.
Qed.

(** What the constructor and its call of [update] leave in the configuration
    of an axis, key by key: the options, with the preset they name written
    over them, laid over the prototype. *)
Lemma constructor_overlay vp opts g (k : axis_id) (key : string) :
  Grid_new E vp opts = Some g ->
  key <> "offset" -> key <> "lines" -> key <> "disabled" ->
  let v := field (default_coords opts) (axis_key k) in
  axis_of g k !! key
  = (if truthy v then own_props (take_type E v) ∪ proto_of E k else proto_of E k) !! key.
Proof.
  unfold Grid_new. cbn zeta. intros H H1 H2 H3.
  rewrite (update_config _ _ _ _ k key H) by done.
  rewrite merge_opts_axis.
  set (v := field (default_coords opts) (axis_key k)).
  assert (Hax : axis_of
                  {| this_x := create_axis (proto_x E) (field (default_coords opts) "x");
                     this_y := create_axis (proto_y E) (field (default_coords opts) "y");
                     this_r := create_axis (proto_r E) (field (default_coords opts) "r");
                     this_a := create_axis (proto_a E) (field (default_coords opts) "a");
                     this_viewport := vp; this_state := ∅ |} k
                = create_axis (proto_of E k) v) by by destruct k.
  rewrite Hax. clear Hax. clearbody v.
  assert (Hcreate : create_axis (proto_of E k) v !! key
                    = (own_props v ∪ proto_of E k) !! key).
  { unfold create_axis. rewrite !extend_cons, extend_nil. cbn [own_props].
    destruct (is_undefined v); rewrite ?lookup_insert_ne by done;
      rewrite !lookup_union, lookup_singleton_ne by done;
      by destruct (own_props v !! key), (proto_of E k !! key). }
  unfold extend_props. rewrite take_type_truthy.
  destruct (truthy v) eqn:Ht.
  - rewrite extend_cons, extend_nil. rewrite !lookup_union, Hcreate, lookup_union.
    assert (Hsub : forall x, own_props v !! key = Some x ->
                             is_Some (own_props (take_type E v) !! key)).
    { intros x Hx. unfold take_type. destruct v as [| | | | | |o|]; try by eauto.
      destruct (truthy (field o "type")); [|by eauto].
      rewrite extend_cons, extend_nil. cbn [own_props] in *.
      rewrite lookup_union, Hx. by destruct (own_props _ !! key). }
    destruct (own_props v !! key) as [x|] eqn:Hv.
    + destruct (Hsub x eq_refl) as [y ->]. by destruct (proto_of E k !! key).
    + by destruct (own_props (take_type E v) !! key), (proto_of E k !! key).
  - destruct (falsy_no_props v Ht) as [_ Hp]. by rewrite Hcreate, Hp, (left_id_L ∅ (∪)).
Qed.

(** X1. The [disabled] flag after construction, for an axis whose option is
    given (not null, not undefined): an explicit [disabled] field of the
    options, or of the preset they name, is kept; otherwise the flag is the
    negation of the option, so [false], [0] and the empty string disable and
    [true] or an object enable. *)
Theorem constructor_disabled vp opts g (k : axis_id) :
  Grid_new E vp opts = Some g ->
  let v := field opts (axis_key k) in
  is_nullish v = false ->
  field (axis_of g k) "disabled"
  = match own_props (take_type E v) !! "disabled" with
    | Some d => d
    | None => js_not v
    end.
Proof.
  unfold Grid_new. cbn zeta. intros H Hv.
  rewrite (all_omitted_present opts k Hv) in H.
  unfold field at 1. rewrite (update_config _ _ _ _ k "disabled" H) by done.
  rewrite merge_opts_axis.
  set (v := field opts (axis_key k)) in *.
  assert (Hax : axis_of
                  {| this_x := create_axis (proto_x E) (field opts "x");
                     this_y := create_axis (proto_y E) (field opts "y");
                     this_r := create_axis (proto_r E) (field opts "r");
                     this_a := create_axis (proto_a E) (field opts "a");
                     this_viewport := vp; this_state := ∅ |} k
                = create_axis (proto_of E k) v) by by destruct k.
  rewrite Hax. clear Hax. clearbody v.
  assert (Hcreate : create_axis (proto_of E k) v !! "disabled" = Some (js_not v)).
  { unfold create_axis. destruct v; try done; apply lookup_insert_eq. }
  unfold extend_props. rewrite take_type_truthy.
  destruct (truthy v) eqn:Ht.
  - rewrite extend_cons, extend_nil, lookup_union, Hcreate.
    by destruct (own_props (take_type E v) !! "disabled").
  - destruct (falsy_no_props v Ht) as [-> ->]. by rewrite Hcreate, lookup_empty.
Qed.

(** The literal of a prototype wins over the defaults and the [linear]
    preset. *)
Lemma proto_geometry (k : axis_id) :
  k = AX \/ k = AY ->
  proto_of E k !! "getRange" = Some (VFun (range_fn k)) /\
  proto_of E k !! "getRatio" = Some (VFun (ratio_fn k)) /\
  proto_of E k !! "getCoords" = Some (VFun (coords_fn k)).
Proof.
  intros [-> | ->]; cbn [proto_of range_fn ratio_fn coords_fn];
    unfold proto_x, proto_y; rewrite !extend_cons, extend_nil; cbn [own_props];
    repeat split; by apply lookup_union_Some_l.
Qed.

(** X2. The geometry of x and y after construction is the one of [core.js]
    unless the options of the axis, or a preset they name, replace it: the
    [linear] preset merged into the defaults cannot. *)
Theorem constructor_geometry vp opts g (k : axis_id) :
  Grid_new E vp opts = Some g ->
  k = AX \/ k = AY ->
  let v := field (default_coords opts) (axis_key k) in
  (truthy v = true ->
   own_props (take_type E v) !! "getRange" = None /\
   own_props (take_type E v) !! "getRatio" = None /\
   own_props (take_type E v) !! "getCoords" = None) ->
  field (axis_of g k) "getRange" = VFun (range_fn k) /\
  field (axis_of g k) "getRatio" = VFun (ratio_fn k) /\
  field (axis_of g k) "getCoords" = VFun (coords_fn k).
Proof.
  intros H Hk v Hv. destruct (proto_geometry k Hk) as (P1 & P2 & P3).
  unfold field.
  rewrite !(constructor_overlay vp opts g k _ H) by done. fold v.
  destruct (truthy v).
  - destruct (Hv eq_refl) as (H1 & H2 & H3).
    by rewrite !lookup_union_r, P1, P2, P3.
  - by rewrite P1, P2, P3.
Qed.

(** X4. [update] skips a falsy fragment: [update({x: false})], [update({x:
    0})] or an options object without the key leave the configuration of the
    axis as it is, and in particular do not disable it, where the
    constructor would. *)
Theorem update_ignores_falsy_fragment g (opts : obj) g' (k : axis_id) (key : string) :
  update E g (VObj opts) = Some g' ->
  truthy (field opts (axis_key k)) = false ->
  key <> "offset" -> key <> "lines" ->
  field (axis_of g' k) key = field (axis_of g k) key.
Proof.
  intros H Hv H1 H2. unfold field.
  rewrite (update_config _ _ _ _ k key H) by done.
  rewrite merge_opts_axis. unfold extend_props.
  by rewrite take_type_truthy, Hv.
Qed.

End ConstructorMore.

(** ** The range and the stored offset *)

Section Normalised.

Variable E : env.

Local Open Scope Q_scope.

Ltac q_cases :=
  repeat match goal with
         | |- context [Qlt_bool ?a ?b] => destruct (Qlt_bool_reflect a b)
         | |- context [Qle_bool ?a ?b] => destruct (Qle_bool_reflect a b)
         end;
  try done; try (exfalso; lra).


Lemma Math_max_ge_r a b : is_nan (Math_max a b) = false -> nle b (Math_max a b) = true.
Proof.
  destruct a as [| | |a], b as [| | |b]; cbv [Math_max nlt nle is_nan]; try done;
    intros _; q_cases.
Qed.

Local Close Scope Q_scope.

Lemma indexed_lookup_gen (f : nat -> string) (l : list value) (i : nat) :
  Inj (=) (=) f ->
  (list_to_map (imap (fun i v => (f i, v)) l) : obj) !! f i = l !! i.
Proof.
  intros Hf. revert f Hf i. induction l as [|x l IH]; intros f Hf i; [done|].
  cbn [imap]. rewrite list_to_map_cons. destruct i as [|i].
  - by rewrite lookup_insert_eq.
  - rewrite lookup_insert_ne by (intros Heq; by apply Hf in Heq).
    apply (IH (f ∘ S)). intros a b Hab. apply Hf in Hab. by injection Hab.
Qed.

(** An array read at an index. *)
Lemma indexed_lookup (l : list value) (i : nat) : indexed l !! pretty i = l !! i.
Proof. apply indexed_lookup_gen. apply _. Qed.

Lemma get_idx_array (vp : list value) (k : axis_id) :
  get_idx (VArr vp) (extent_index k) = Some (nth (extent_index k) vp VUndef).
Proof.
  unfold get_idx, get. rewrite indexed_lookup, nth_lookup.
  by destruct k; vm_compute (String.eqb _ _).
Qed.

(** [getRange] of x and y on a state with a viewport array and a
    configuration: the extent of the viewport times the scale. *)
Lemma getRange_builtin (k : axis_id) (st lines : obj) (vp : list value) :
  k = AX \/ k = AY ->
  st !! "viewport" = Some (VArr vp) ->
  st !! "lines" = Some (VObj lines) ->
  call E (range_fn k) [VObj st]
  = Some (VNum (nmul (viewport_item E vp (extent_index k))
                     (to_num E (field lines "scale")))).
Proof.
  intros Hk Hvp Hl.
  assert (Hbody : call E (range_fn k) [VObj st] = getRange_body E (extent_index k) [VObj st])
    by by destruct Hk as [-> | ->].
  rewrite Hbody. unfold getRange_body, arg. cbn [nth get]. rewrite Hvp, Hl. cbn [default mbind option_bind id].
  by rewrite get_idx_array.
Qed.

(** X7. The range of the state of x and y after an update, with the geometry
    of [core.js]: the width (for x) or the height (for y) of the viewport
    times the scale of the axis, whether the axis is enabled or not. *)
Theorem state_range_extent_times_scale g opts g' (k : axis_id) :
  update E g opts = Some g' ->
  k = AX \/ k = AY ->
  field (axis_of g' k) "getRange" = VFun (range_fn k) ->
  field (state_of g' (axis_key k)) "range"
  = VNum (nmul (viewport_item E (this_viewport g) (extent_index k))
               (to_num E (field (axis_of g' k) "scale"))).
Proof.
  intros H Hk Hr.
  destruct (update_state E g opts g' k H Hk) as (grid & cfg & Hc & _).
  assert (Hkeep : forall key, key <> "lines" -> field (axis_of g' k) key = field cfg key).
  { intros key Hkey. unfold field. by rewrite (calcLines_config E _ _ _ _ _ key Hc). }
  destruct (calcLines_style_key E _ _ _ _ _ "range" Hc) as (range & Hcall & Hst);
    [solve_not_in|].
  unfold field at 1. rewrite Hst, resolve_style_range. cbn [default].
  unfold call_method in Hcall. rewrite <- (Hkeep "getRange"), Hr in Hcall by done.
  rewrite (getRange_builtin k _ cfg (this_viewport g) Hk) in Hcall.
  - injection Hcall as <-. by rewrite (Hkeep "scale").
  - unfold state_literal. rewrite lookup_insert_ne by done. apply lookup_insert_eq.
  - unfold state_literal. rewrite !lookup_insert_ne by done. apply lookup_insert_eq.
Qed.

Lemma field_insert_eq (o : obj) (k : string) (v : value) : field (<[k := v]> o) k = v.
Proof. unfold field. by rewrite lookup_insert_eq. Qed.


(** Lines 131-139 with the geometry of [core.js]. *)
Lemma normalize_builtin (axis : obj) (vp : list value) (k : axis_id) :
  k = AX \/ k = AY ->
  truthy (field axis "disabled") = false ->
  field axis "getRange" = VFun (range_fn k) ->
  normalize E axis vp
  = Some (<["offset" :=
              VNum (clamp (to_num E (field axis "offset")) (to_num E (field axis "min"))
                      (Math_max
                         (nsub (to_num E (field axis "max"))
                               (nmul (viewport_item E vp (extent_index k))
                                     (to_num E (field axis "scale"))))
                         (to_num E (field axis "min"))))]> axis).
Proof.
  intros Hk Hd Hr. unfold normalize, call_method. rewrite Hd, Hr.
  rewrite (getRange_builtin k _ axis vp Hk).
  - done.
  - apply lookup_insert_eq.
  - rewrite lookup_insert_ne by done. apply lookup_singleton_eq.
Qed.


(** X6. The offset that [update] stores for an enabled x or y axis with the
    geometry of [core.js] lies between [min] and the larger of [max - range]
    and [min], where the range is the extent of the viewport times the
    scale; the requested offset and that upper limit must be numbers. *)
Theorem stored_offset_within_limits g opts g' (k : axis_id) :
  update E g opts = Some g' ->
  k = AX \/ k = AY ->
  let cfg := axis_of g' k in
  truthy (field cfg "disabled") = false ->
  field cfg "getRange" = VFun (range_fn k) ->
  let range := nmul (viewport_item E (this_viewport g) (extent_index k))
                    (to_num E (field cfg "scale")) in
  let lo := to_num E (field cfg "min") in
  let hi := Math_max (nsub (to_num E (field cfg "max")) range) lo in
  is_nan (to_num E (field (axis_of (merge_opts E g opts) k) "offset")) = false ->
  is_nan hi = false ->
  exists offset,
    field cfg "offset" = VNum offset /\
    nle lo offset = true /\ nle offset hi = true.
Proof.
  intros H Hk cfg Hd Hr range lo hi Hoff Hhi.
  destruct (update_state E g opts g' k H Hk) as (grid & mid & Hc & Hn).
  set (m := axis_of (merge_opts E g opts) k) in *.
  assert (Hcfg : forall key, key <> "lines" -> field cfg key = field mid key).
  { intros key Hkey. unfold field, cfg. by rewrite (calcLines_config E _ _ _ _ _ key Hc). }
  assert (Hmid : forall key, key <> "offset" -> field mid key = field m key).
  { intros key Hkey. unfold field. by rewrite (normalize_lookup E _ _ _ key Hn). }
  assert (Hm : forall key, key <> "offset" -> key <> "lines" -> field cfg key = field m key).
  { intros key H1 H2. by rewrite Hcfg, Hmid. }
  rewrite (normalize_builtin m _ k Hk) in Hn.
  - injection Hn as Hn.
    rewrite <- (Hm "min"), <- (Hm "max"), <- (Hm "scale") in Hn by done.
    exists (clamp (to_num E (field m "offset")) lo hi).
    split.
    + rewrite Hcfg by done. by rewrite <- Hn, field_insert_eq.
    + apply clamp_bounds; [exact Hoff | by apply Math_max_ge_r].
  - by rewrite <- Hm.
  - by rewrite <- Hm.
Qed.



End Normalised.

(** ** The geometry of x and y *)

Section Geometry.

Variable E : env.

Local Open Scope Q_scope.

Lemma ndiv_mono a b (r : Q) :
  0 < r -> nle a b = true -> nle (ndiv a (Fin r)) (ndiv b (Fin r)) = true.
Proof.
  intros Hr H.
  assert (Hz : Qis_zero r = false) by (destruct (Qis_zero_reflect r); [lra|done]).
  assert (Hp : Qnonneg r = true) by (unfold Qnonneg; destruct (Qle_bool_reflect 0 r); [done|lra]).
  destruct a as [| | |p], b as [| | |q]; try done; cbn [ndiv]; rewrite ?Hz, ?Hp; cbn [negb inf_of_sign]; try done.
  - by destruct (norm_cases (q / r)) as [-> | [-> | ->]].
  - by destruct (norm_cases (p / r)) as [-> | [-> | ->]].
  - apply norm_mono. cbn in H. destruct (Qle_bool_reflect p q); [|done].
    unfold Qdiv. apply Qmult_le_compat_r; [done|]. apply Qinv_le_0_compat. lra.
Qed.

Lemma one_minus_anti a b :
  nle a b = true -> nle (nsub (Fin 1) b) (nsub (Fin 1) a) = true.
Proof.
  unfold nsub. destruct a as [| | |p], b as [| | |q]; try done; cbn [nneg nadd]; intros H.
  - by destruct (norm_cases (1 + Qred (- q))) as [-> | [-> | ->]].
  - by destruct (norm_cases (1 + Qred (- p))) as [-> | [-> | ->]].
  - apply norm_mono. cbn in H. destruct (Qle_bool_reflect p q); [|done].
    rewrite !Qred_correct. lra.
Qed.

Lemma nsub_self (q : Q) : nsub (Fin q) (Fin q) = Fin 0.
Proof.
  unfold nsub. cbn [nneg nadd].
  assert (Hz : q + Qred (- q) == 0) by (rewrite Qred_correct; lra).
  rewrite norm_Fin.
  - by rewrite (Qred_complete _ _ Hz).
  - rewrite Hz. pose proof MAX_VALUE_ge_1. lra.
Qed.

Lemma ndiv_zero (range : num) :
  is_nan range = false -> neqb range (Fin 0) = false -> ndiv (Fin 0) range = Fin 0.
Proof.
  destruct range as [| | |r]; try done. cbn [neqb ndiv]. intros _ Hr.
  unfold Qis_zero. rewrite Hr.
  assert (H0 : 0 / r == 0) by (unfold Qdiv; lra).
  rewrite norm_Fin.
  - by rewrite (Qred_complete _ _ H0).
  - rewrite H0. pose proof MAX_VALUE_ge_1. lra.
Qed.

Local Close Scope Q_scope.

(** [getRatio] of x and y on a state object. *)
Lemma getRatio_call (k : axis_id) (v : value) (st : obj) :
  k = AX \/ k = AY ->
  call E (ratio_fn k) [v; VObj st]
  = Some (VNum (let t := ndiv (nsub (to_num E v) (to_num E (field st "offset")))
                              (to_num E (field st "range")) in
                match k with AX => t | _ => nsub (Fin 1) t end)).
Proof. by intros [-> | ->]. Qed.

(** X19. The value equal to the state offset has ratio 0 on x and ratio 1 on
    y, for every range that is a number other than zero. *)
Theorem getRatio_at_offset (k : axis_id) (st : obj) (off : Q) (range : num) :
  k = AX \/ k = AY ->
  field st "offset" = vnum off ->
  field st "range" = VNum range ->
  is_nan range = false ->
  neqb range (Fin 0) = false ->
  call E (ratio_fn k) [vnum off; VObj st]
  = Some (vnum (match k with AX => 0 | _ => 1 end)).
Proof.
  intros Hk Ho Hr Hn Hz. rewrite (getRatio_call k _ st Hk), Ho, Hr.
  cbn [to_num vnum]. rewrite nsub_self, (ndiv_zero range Hn Hz).
  by destruct Hk as [-> | ->].
Qed.

(** X21. With a range of zero no value has a finite ratio, on x or on y: the
    division gives NaN at the state offset and an infinity elsewhere. *)
Theorem getRatio_zero_range (k : axis_id) (st : obj) (off r v : Q) :
  k = AX \/ k = AY ->
  field st "offset" = vnum off ->
  field st "range" = vnum r ->
  (r == 0)%Q ->
  exists t, call E (ratio_fn k) [vnum v; VObj st] = Some (VNum t) /\ is_finite t = false.
Proof.
  intros Hk Ho Hr Hz. rewrite (getRatio_call k _ st Hk), Ho, Hr.
  cbn [to_num vnum]. cbn zeta.
  assert (Hq : Qis_zero r = true) by (by destruct (Qis_zero_reflect r)).
  assert (Hx : is_finite (ndiv (nsub (Fin v) (Fin off)) (Fin r)) = false).
  { unfold nsub. cbn [nneg nadd].
    destruct (norm_cases (v + Qred (- off))) as [-> | [-> | ->]]; cbn [ndiv]; rewrite ?Hq.
    - by destruct (Qnonneg r).
    - by destruct (Qnonneg r).
    - case_match; [reflexivity|]. by destruct (Qnonneg (Qred (v + Qred (- off)))). }
  eexists. split; [done|].
  destruct Hk as [-> | ->]; [exact Hx|].
  destruct (ndiv _ _) as [| | |t]; done.
Qed.

(** X20. With a positive finite range the ratio of x does not decrease when
    the value grows, and the ratio of y does not increase: the y axis is
    flipped. *)
Theorem getRatio_monotone (k : axis_id) (st : obj) (off r v1 v2 : Q) :
  k = AX \/ k = AY ->
  field st "offset" = vnum off ->
  field st "range" = vnum r ->
  (0 < r)%Q -> (v1 <= v2)%Q ->
  exists t1 t2,
    call E (ratio_fn k) [vnum v1; VObj st] = Some (VNum t1) /\
    call E (ratio_fn k) [vnum v2; VObj st] = Some (VNum t2) /\
    (match k with AX => nle t1 t2 | _ => nle t2 t1 end) = true.
Proof.
  intros Hk Ho Hr Hpos Hv. rewrite !(getRatio_call k _ st Hk), Ho, Hr.
  cbn [to_num vnum]. cbn zeta.
  assert (Hx : nle (ndiv (nsub (Fin v1) (Fin off)) (Fin r))
                   (ndiv (nsub (Fin v2) (Fin off)) (Fin r)) = true).
  { apply ndiv_mono; [done|]. apply nsub_mono. cbn.
    by destruct (Qle_bool_reflect v1 v2). }
  do 2 eexists. split; [done|]. split; [done|].
  destruct Hk as [-> | ->]; [done|]. by apply one_minus_anti.
Qed.

Lemma mapM_total {A B : Type} (f : A -> option B) (g : A -> B) (l : list A) :
  (forall a, f a = Some (g a)) -> mapM f l = Some (g <$> l).
Proof.
  intros H. induction l as [|a l IH]; [done|].
  cbn [mapM]. rewrite H. cbn. by rewrite IH.
Qed.

(** X22. [getCoords] of x and y on an array of values, the configuration
    having the [getRatio] of [core.js]: one segment of four coordinates per
    value, in the order of the values, from 0 to 1 across the other axis. *)
Theorem getCoords_segments (k : axis_id) (vs : list value) (st lines : obj) :
  k = AX \/ k = AY ->
  st !! "lines" = Some (VObj lines) ->
  field lines "getRatio" = VFun (ratio_fn k) ->
  let ratio v := ndiv (nsub (to_num E v) (to_num E (field st "offset")))
                      (to_num E (field st "range")) in
  let segment v :=
    match k with
    | AX => [VNum (ratio v); vnum 0; VNum (ratio v); vnum 1]
    | _ => [vnum 0; VNum (nsub (Fin 1) (ratio v)); vnum 1; VNum (nsub (Fin 1) (ratio v))]
    end in
  exists coords,
    call E (coords_fn k) [VArr vs; VObj st] = Some (VArr coords) /\
    coords = concat (segment <$> vs) /\
    length coords = 4 * length vs.
Proof.
  intros Hk Hl Hr ratio segment.
  exists (concat (segment <$> vs)). split; [|split; [done|]].
  - assert (Hbody : call E (coords_fn k) [VArr vs; VObj st]
                    = getCoords_body E (match k with AX => false | _ => true end)
                        [VArr vs; VObj st]) by by destruct Hk as [-> | ->].
    rewrite Hbody. unfold getCoords_body, arg. cbn [nth truthy negb loop_elems get].
    cbn [mbind option_bind].
    rewrite (mapM_total _ segment); [done|].
    intros v. rewrite Hl. cbn [default mbind option_bind id get].
    change (default VUndef (lines !! "getRatio")) with (field lines "getRatio").
    rewrite Hr.
    assert (Hleaf : call_leaf E (ratio_fn k) [v; VObj st] = call E (ratio_fn k) [v; VObj st])
      by by destruct Hk as [-> | ->].
    rewrite Hleaf, (getRatio_call k v st Hk). cbn [mbind option_bind].
    by destruct Hk as [-> | ->].
  - induction vs as [|v vs IH]; [done|].
    cbn [fmap list_fmap concat]. rewrite length_app, IH.
    unfold segment. destruct k; cbn [length]; lia.
Qed.

End Geometry.

(** ** The properties on explicit inputs *)

Lemma calcLines_succeeds (r : option (obj * obj)) :
  succeeds r = true -> r = Some (state_or_empty r, config_or_empty r).
Proof. by destruct r as [[st lines]|]. Qed.

Lemma calcLines_labelColor_undefined_witness :
  state_or_empty (calcLines sample_env VNull (proto_x sample_env) vp100) !! "labelColor"
  = Some VUndef.
Proof.
  apply (calcLines_labelColor_undefined sample_env VNull (proto_x sample_env) vp100 _
           (config_or_empty (calcLines sample_env VNull (proto_x sample_env) vp100))).
  apply calcLines_succeeds. vm_compute. reflexivity.
Defined.

Lemma subvalues_refine_values_witness :
  exists svs,
    state_or_empty (calcLines sample_env VNull (proto_x sample_env) vp100) !! "subvalues"
      = Some (VArr svs) /\
    forall v, v ∈ svs ->
      exists vs,
        state_or_empty (calcLines sample_env VNull (proto_x sample_env) vp100) !! "values"
          = Some (VArr vs) /\ includes vs v = true.
Proof.
  apply (subvalues_refine_values sample_env VNull (proto_x sample_env) vp100 _
           (config_or_empty (calcLines sample_env VNull (proto_x sample_env) vp100))
           (FnUser 0)).
  - apply calcLines_succeeds. vm_compute. reflexivity.
  - vm_compute. reflexivity.
  - left. vm_compute. reflexivity.
Defined.

Lemma labels_parity_witness :
  exists ls,
    state_or_empty (calcLines sample_env VNull cfg_no_labels vp100) !! "labels"
      = Some (VArr ls) /\
    length ls = length [vnum 0; vnum 50; vnum 100].
Proof.
  apply (labels_parity sample_env VNull cfg_no_labels vp100 _
           (config_or_empty (calcLines sample_env VNull cfg_no_labels vp100))).
  - apply calcLines_succeeds. vm_compute. reflexivity.
  - vm_compute. reflexivity.
  - vm_compute. reflexivity.
  - intros f args r Hf. vm_compute in Hf. discriminate Hf.
Defined.

(** C8 fails for an explicit label sequence: the ticks 1, 2, 3 with the
    single label "a" give a state of three values and one label. *)
Lemma labels_parity_counterexample :
  let st := state_or_empty (calcLines sample_env VNull cfg_one_label vp100) in
  st !! "values" = Some (VArr [vnum 1; vnum 2; vnum 3]) /\
  st !! "labels" = Some (VArr [VStr "a"]) /\
  length [vnum 1; vnum 2; vnum 3] <> length [VStr "a"].
Proof.
  cbv zeta. split; [vm_compute; reflexivity|].
  split; [vm_compute; reflexivity|]. cbn. lia.
Qed.

Lemma grid_succeeds (r : option Grid) :
  succeeds r = true -> r = Some (grid_or_empty r).
Proof. by destruct r. Qed.

Lemma omitted_axis_disabled_witness :
  field (axis_of grid_y_only AX) "disabled" = VBool true.
Proof.
  refine (proj1 (omitted_axis_disabled sample_env vp100 opts_y_only _ _ _) AX _ _).
  - apply grid_succeeds. vm_compute. reflexivity.
  - vm_compute. reflexivity.
  - vm_compute. reflexivity.
  - left. vm_compute. reflexivity.
Defined.

(** C6 fails when every axis key is omitted: [new Grid({})] leaves x and y
    enabled. *)
Lemma omitted_axis_disabled_counterexample :
  is_undefined (field (∅ : obj) "x") = true /\
  is_undefined (field (∅ : obj) "y") = true /\
  succeeds (Grid_new sample_env vp100 ∅) = true /\
  field (this_x grid_default) "disabled" = VBool false /\
  field (this_y grid_default) "disabled" = VBool false.
Proof. repeat split; vm_compute; reflexivity. Qed.

Lemma preset_overrides_fragment_witness :
  axis_of grid_typed AX !! "distance" = Some (vnum 60) /\
  axis_of grid_typed_lines AX !! "lines" = Some (VFun (FnUser 0)).
Proof.
  split.
  - refine (proj1 (preset_overrides_fragment sample_env grid_default opts_typed _ AX
                     fragment_typed "distance" _ _ _ _) (vnum 60) _ _).
    + apply grid_succeeds. vm_compute. reflexivity.
    + vm_compute. reflexivity.
    + vm_compute. reflexivity.
    + discriminate.
    + vm_compute. reflexivity.
    + intros Hkey. discriminate Hkey.
  - refine (proj1 (preset_overrides_fragment sample_env grid_default opts_typed_lines _ AX
                     fragment_typed_lines "lines" _ _ _ _) (VFun (FnUser 0)) _ _).
    + apply grid_succeeds. vm_compute. reflexivity.
    + vm_compute. reflexivity.
    + vm_compute. reflexivity.
    + discriminate.
    + vm_compute. reflexivity.
    + intros _. right. left. reflexivity.
Defined.

(** C2 fails: the fragment [{type: 'linear', distance: 200}] sets
    [distance] explicitly, the [linear] preset sets it to 60, and [update]
    stores 60. *)
Lemma preset_overrides_fragment_counterexample :
  fragment_typed !! "distance" = Some (vnum 200) /\
  succeeds (update sample_env grid_default (VObj opts_typed)) = true /\
  this_x grid_typed !! "distance" = Some (vnum 60).
Proof. repeat split; vm_compute; reflexivity. Qed.



Lemma pan_offsets_witness :
  field (transform_y sample_env cfg_pan_only vp100 drag_3_2) "offset"
  = VNum (nadd (to_num sample_env (field cfg_pan_only "offset"))
               (nmul (to_num sample_env (field cfg_pan_only "scale")) (e_dy drag_3_2))).
Proof.
  refine (proj1 (proj2 (proj2 (pan_offsets sample_env cfg_pan_only vp100 drag_3_2 _ _)) _)).
  - vm_compute. reflexivity.
  - vm_compute. reflexivity.
  - vm_compute. reflexivity.
Defined.

(** C5 fails: from offset 0 and scale 1, a drag of 2 pixels down moves the
    y offset to 2, where subtracting [scale * dy] would give -2. *)
Lemma pan_offsets_counterexample :
  field cfg_enabled_y "offset" = vnum 0 /\
  field cfg_enabled_y "scale" = vnum 1 /\
  truthy (field cfg_enabled_y "pan") = true /\
  field (transform_y sample_env cfg_enabled_y vp100 drag_3_2) "offset" = vnum 2 /\
  nsub (Fin 0) (nmul (Fin 1) (e_dy drag_3_2)) = Fin (-2).
Proof. repeat split; vm_compute; reflexivity. Qed.

Lemma scale_and_offset_bounds_witness :
  (exists scale,
      field (axis_of grid_zoomed AX) "scale" = VNum scale /\
      nle (to_num sample_env (field (axis_of grid_default AX) "minScale")) scale = true /\
      nle scale (to_num sample_env (field (axis_of grid_default AX) "maxScale")) = true) /\
  (exists offset,
      field (state_of grid_limits "x") "offset" = VNum offset /\
      nle (to_num sample_env (field (axis_of grid_limits AX) "min")) offset = true /\
      nle offset (nsub (to_num sample_env (field (axis_of grid_limits AX) "max")) (Fin 100))
      = true) /\
  (field (axis_of grid_limits AX) "min" = vnum 0 /\
   field (axis_of grid_limits AX) "max" = vnum 300 /\
   field (state_of grid_limits "x") "range" = vnum 100 /\
   field (state_of grid_limits "x") "offset" = vnum 150).
Proof.
  split; [|split; [|repeat split; vm_compute; reflexivity]].
  - refine (proj1 (scale_and_offset_bounds sample_env) grid_default wheel_up _ AX
              _ _ _ _ _ _).
    + apply grid_succeeds. vm_compute. reflexivity.
    + by left.
    + vm_compute. reflexivity.
    + vm_compute. reflexivity.
    + vm_compute. reflexivity.
    + vm_compute. reflexivity.
  - refine (proj2 (scale_and_offset_bounds sample_env) grid_default (VObj opts_limits) _ AX
              100%Q _ _ _ _ _).
    + apply grid_succeeds. vm_compute. reflexivity.
    + by left.
    + vm_compute. reflexivity.
    + vm_compute. reflexivity.
    + vm_compute. reflexivity.
Defined.

(** C9 fails on both counts.  [update({x: {scale: 2^-60}})] stores that scale
    although [minScale] is 2^-52.  And with [min = 0], [max = 100] and a range
    of 200, the state offset is 0, which is not below [max - range = -100]. *)
Lemma scale_and_offset_bounds_counterexample :
  (field (this_x grid_small_scale) "minScale" = vnum EPSILON /\
   field (this_x grid_small_scale) "scale" = vnum (1 # 2 ^ 60) /\
   nle (Fin EPSILON) (Fin (1 # 2 ^ 60)) = false) /\
  (field (state_of grid_bounded "x") "range" = vnum 200 /\
   field (state_of grid_bounded "x") "offset" = vnum 0 /\
   field (this_x grid_bounded) "max" = vnum 100 /\
   nle (Fin 0) (nsub (Fin 100) (Fin 200)) = false).
Proof. repeat split; vm_compute; reflexivity. Qed.

(** C3 on [new Grid({x: {scale: Number.MAX_VALUE}})] with a viewport 2 pixels
    wide and the default limits [min = -Infinity], [max = Infinity]: the x
    axis is enabled, its range is [Infinity], the offset clamp of [update] is
    not skipped and stores NaN, and the state offset is NaN. *)
Theorem nan_offset_on_infinite_range :
  succeeds (Grid_new sample_env vp2 opts_max_scale) = true /\
  field (this_x grid_overflow) "disabled" = VBool false /\
  field (this_x grid_overflow) "min" = VNum NInf /\
  field (this_x grid_overflow) "max" = VNum PInf /\
  field (state_of grid_overflow "x") "range" = VNum PInf /\
  field (this_x grid_overflow) "offset" = VNum NaN /\
  field (state_of grid_overflow "x") "offset" = VNum NaN.
Proof. repeat split; vm_compute; reflexivity. Qed.

(** The x axis with origin 0 keeps the value 50 at the pointer fraction
    1/2 through the wheel event, and so does the y axis of the default grid
    (origin 1/2) with the value 0. *)
Example zoom_x_keeps_focal_point_example (f' : Q) :
  getRatio_x_body sample_env [vnum 50; VObj (state_of grid_x_origin0_zoomed "x")]
  = Some (vnum f') ->
  f' = (1 # 2)%Q.
Proof.
  refine (zoom_x_keeps_focal_point sample_env (this_x grid_x_origin0) vp100 wheel_up
            (state_of grid_x_origin0 "x") (state_of grid_x_origin0_zoomed "x")
            (vnum 50) 0%Q (1 # 2)%Q f' _ _ _ _ _ _ _ _ _ _ _).
  - vm_compute. reflexivity.
  - vm_compute. reflexivity.
  - right. reflexivity.
  - vm_compute. reflexivity.
  - lra.
  - vm_compute. reflexivity.
  - vm_compute. reflexivity.
  - vm_compute. reflexivity.
  - vm_compute. reflexivity.
  - vm_compute. reflexivity.
  - vm_compute. reflexivity.
Qed.

Example zoom_y_keeps_focal_point_at_half_example (f' : Q) :
  getRatio_y_body sample_env [vnum 0; VObj (state_of grid_zoomed "y")]
  = Some (vnum f') ->
  f' = (1 # 2)%Q.
Proof.
  refine (zoom_y_keeps_focal_point_at_half sample_env (this_y grid_default) vp100 wheel_up
            (state_of grid_default "y") (state_of grid_zoomed "y")
            (vnum 0) (1 # 2)%Q f' _ _ _ _ _ _ _ _ _ _).
  - vm_compute. reflexivity.
  - vm_compute. reflexivity.
  - right. reflexivity.
  - vm_compute. reflexivity.
  - vm_compute. reflexivity.
  - vm_compute. reflexivity.
  - vm_compute. reflexivity.
  - vm_compute. reflexivity.
  - vm_compute. reflexivity.
  - vm_compute. reflexivity.
Qed.

(** C1 on the y axis of [new Grid({y: {origin: 0}})], 100 by 100 viewport,
    wheel event at the centre with [dz = -10].  The pointer is at fraction
    1/2 and so is the value 50 before the event.  The zoom factor is 1/10, the
    new scale 9/10 is the unclamped product, the new offset -5 passes both
    offset clamps unchanged, and the value 50 then sits at fraction 7/18. *)
Theorem focal_zoom_y_moves :
  let before := state_of grid_origin0 "y" in
  let after := state_of grid_origin0_zoomed "y" in
  succeeds (on_panzoom sample_env grid_origin0 wheel_up) = true /\
  ndiv (nsub (e_y wheel_up) (viewport_item sample_env vp100 1))
       (viewport_item sample_env vp100 3) = Fin (1 # 2) /\
  call_method sample_env (this_y grid_origin0) "getRatio" [vnum 50; VObj before]
  = Some (vnum (1 # 2)) /\
  nmul (Fin 1) (nsub (Fin 1) (zoom_of wheel_up (Fin 100))) = Fin (9 # 10) /\
  field (this_y grid_origin0_zoomed) "scale" = vnum (9 # 10) /\
  field (transform_y sample_env (this_y grid_origin0) vp100 wheel_up) "offset" = vnum (-5) /\
  field (this_y grid_origin0_zoomed) "offset" = vnum (-5) /\
  field after "offset" = vnum (-5) /\
  call_method sample_env (this_y grid_origin0_zoomed) "getRatio" [vnum 50; VObj after]
  = Some (vnum (7 # 18)).
Proof. cbv zeta. repeat split; vm_compute; reflexivity. Qed.


(** ** The further properties on explicit inputs *)

Lemma mapping_labels_extend_ticks_witness :
  let r := calcLines sample_env2 VNull cfg_mapping_2_10 vp100 in
  (exists entries,
      entries ≡ₚ map_to_list mapping_2_10 /\
      StronglySorted index_le entries /\
      let extra := (fun kv => VNum (parseFloat sample_env2 kv.1)) <$> entries in
      field (config_or_empty r) "lines" = VArr ([vnum 1; vnum 2] ++ extra) /\
      state_or_empty r !! "values" = Some (VArr ([vnum 1; vnum 2] ++ extra)) /\
      state_or_empty r !! "labels"
      = Some (VArr (replicate (length [vnum 1; vnum 2]) VNull ++ (snd <$> entries)))) /\
  field (config_or_empty r) "lines" = VArr [vnum 1; vnum 2; vnum 2; vnum 10] /\
  state_or_empty r !! "values" = Some (VArr [vnum 1; vnum 2; vnum 2; vnum 10]) /\
  state_or_empty r !! "labels" = Some (VArr [VNull; VNull; VStr "two"; VStr "ten"]).
Proof.
  split; [|repeat split; vm_compute; reflexivity].
  refine (mapping_labels_extend_ticks sample_env2 VNull cfg_mapping_2_10 vp100 _ _
            [vnum 1; vnum 2] (FnUser 3) mapping_2_10 _ _ _ _ _).
  - apply calcLines_succeeds. vm_compute. reflexivity.
  - vm_compute. reflexivity.
  - vm_compute. reflexivity.
  - intros args. reflexivity.
  - apply (bool_decide_unpack _). vm_compute. reflexivity.
Defined.

Lemma literal_mapping_labels_ignored_witness :
  let r := calcLines sample_env2 VNull cfg_mapping_literal vp100 in
  state_or_empty r !! "labels" = Some (VArr (replicate (length [vnum 1; vnum 2]) VNull)) /\
  config_or_empty r = cfg_mapping_literal.
Proof.
  refine (literal_mapping_labels_ignored sample_env2 VNull cfg_mapping_literal vp100 _ _
            [vnum 1; vnum 2] sample_mapping _ _ _).
  - apply calcLines_succeeds. vm_compute. reflexivity.
  - vm_compute. reflexivity.
  - vm_compute. reflexivity.
Defined.

Lemma auto_sublines_scale_witness :
  let r := calcLines sample_env VNull (proto_x sample_env) vp100 in
  state_or_empty r !! "scale" = Some VUndef /\
  exists (pass : obj) values generated subvalues,
    pass !! "scale" = Some (VNum NaN) /\
    pass !! "values" = Some values /\
    call sample_env (FnUser 0) [VObj pass] = Some generated /\
    filter_present values generated = Some subvalues /\
    state_or_empty r !! "subvalues" = Some subvalues.
Proof.
  refine (auto_sublines_scale sample_env VNull (proto_x sample_env) vp100 _ _ (FnUser 0) _ _ _).
  - apply calcLines_succeeds. vm_compute. reflexivity.
  - vm_compute. reflexivity.
  - left. vm_compute. reflexivity.
Defined.

Lemma auto_sublines_need_array_witness :
  calcLines sample_env2 VNull cfg_bad_generator vp100 = None.
Proof.
  refine (auto_sublines_need_array sample_env2 VNull cfg_bad_generator vp100 (FnUser 2) _ _ _).
  - vm_compute. reflexivity.
  - left. vm_compute. reflexivity.
  - intros args r [= <-]. reflexivity.
Defined.

Lemma state_offset_not_nan_witness :
  exists offset,
    field (state_or_empty (calcLines sample_env VNull (proto_x sample_env) vp100)) "offset"
    = VNum offset /\
    is_nan offset = false.
Proof.
  refine (state_offset_not_nan sample_env VNull (proto_x sample_env) vp100 _
            (config_or_empty (calcLines sample_env VNull (proto_x sample_env) vp100))
            100%Q _ _ _ _ _ _).
  - apply calcLines_succeeds. vm_compute. reflexivity.
  - vm_compute. reflexivity.
  - vm_compute. reflexivity.
  - vm_compute. reflexivity.
  - vm_compute. reflexivity.
  - vm_compute. reflexivity.
Defined.

Lemma update_needs_getRange_witness :
  update sample_env grid_default (VObj opts_bad_range) = None.
Proof.
  refine (update_needs_getRange sample_env grid_default (VObj opts_bad_range) AX _ _).
  - by left.
  - vm_compute. reflexivity.
Defined.

Lemma constructor_state_keys_witness :
  dom (this_state grid_default) = {[ "x"; "y" ]}.
Proof.
  refine (constructor_state_keys sample_env vp100 ∅ grid_default _).
  apply grid_succeeds. vm_compute. reflexivity.
Defined.

Lemma panzoom_skips_disabled_witness :
  field (axis_of (grid_or_empty (on_panzoom sample_env grid_y_only wheel_up)) AX) "scale"
  = field (axis_of grid_y_only AX) "scale".
Proof.
  refine (panzoom_skips_disabled sample_env grid_y_only wheel_up _ AX "scale" _ _ _ _).
  - apply grid_succeeds. vm_compute. reflexivity.
  - by left.
  - vm_compute. reflexivity.
  - discriminate.
Defined.

Lemma zoom_false_keeps_scale_witness :
  field (axis_of (grid_or_empty (on_panzoom sample_env grid_no_zoom wheel_up)) AY) "scale"
  = field (axis_of grid_no_zoom AY) "scale".
Proof.
  refine (zoom_false_keeps_scale sample_env grid_no_zoom wheel_up _ AY _ _ _).
  - apply grid_succeeds. vm_compute. reflexivity.
  - by right.
  - vm_compute. reflexivity.
Defined.

Lemma zoom_of_bounded_witness :
  exists z, zoom_of wheel_up (Fin (inject_Z 100)) = Fin z /\ (- (3 # 4) <= z <= 3 # 4)%Q.
Proof.
  refine (zoom_of_bounded wheel_up 100%Z _ _).
  - split; [reflexivity | vm_compute; discriminate].
  - reflexivity.
Defined.

Lemma zero_height_scale_nan_witness :
  field (axis_of (grid_or_empty (on_panzoom sample_env grid_flat wheel_up)) AX) "scale"
  = VNum NaN.
Proof.
  refine (zero_height_scale_nan sample_env grid_flat wheel_up _ AX 0%Q _ _ _ _ _ _ _).
  - apply grid_succeeds. vm_compute. reflexivity.
  - by left.
  - vm_compute. reflexivity.
  - vm_compute. reflexivity.
  - vm_compute. reflexivity.
  - reflexivity.
  - reflexivity.
Defined.

Lemma drag_keeps_scale_witness :
  exists scale,
    transform_y sample_env cfg_enabled_y vp100 drag_3_2 !! "scale" = Some (VNum scale) /\
    neqb scale (Fin 1) = true.
Proof.
  refine (drag_keeps_scale sample_env AY cfg_enabled_y vp100 drag_3_2 100%Q 1%Q
            _ _ _ _ _ _ _ _ _ _).
  - by right.
  - vm_compute. reflexivity.
  - vm_compute. reflexivity.
  - reflexivity.
  - vm_compute. reflexivity.
  - reflexivity.
  - vm_compute. reflexivity.
  - split; vm_compute; discriminate.
  - vm_compute. reflexivity.
  - vm_compute. reflexivity.
Defined.

Lemma constructor_disabled_witness :
  field (axis_of grid_x_disabled AX) "disabled" = VBool true.
Proof.
  refine (eq_trans
            (constructor_disabled sample_env vp100 opts_x_disabled grid_x_disabled AX _ _) _).
  - apply grid_succeeds. vm_compute. reflexivity.
  - vm_compute. reflexivity.
  - vm_compute. reflexivity.
Defined.

Lemma update_ignores_falsy_fragment_witness :
  field (axis_of (grid_or_empty (update sample_env grid_default (VObj opts_x_false))) AX)
        "disabled"
  = field (axis_of grid_default AX) "disabled".
Proof.
  refine (update_ignores_falsy_fragment sample_env grid_default opts_x_false _ AX "disabled"
            _ _ _ _).
  - apply grid_succeeds. vm_compute. reflexivity.
  - vm_compute. reflexivity.
  - discriminate.
  - discriminate.
Defined.

Lemma getRatio_zero_range_witness :
  exists t,
    call sample_env FnXRatio [vnum 20; VObj state_10_0] = Some (VNum t) /\
    is_finite t = false.
Proof.
  refine (getRatio_zero_range sample_env AX state_10_0 10%Q 0%Q 20%Q _ _ _ _).
  - by left.
  - vm_compute. reflexivity.
  - vm_compute. reflexivity.
  - reflexivity.
Defined.

Lemma constructor_geometry_witness :
  field (axis_of grid_default AY) "getRange" = VFun FnYRange /\
  field (axis_of grid_default AY) "getRatio" = VFun FnYRatio /\
  field (axis_of grid_default AY) "getCoords" = VFun FnYCoords.
Proof.
  refine (constructor_geometry sample_env vp100 ∅ grid_default AY _ _ _).
  - apply grid_succeeds. vm_compute. reflexivity.
  - by right.
  - intros _. repeat split; vm_compute; reflexivity.
Defined.

Lemma state_range_extent_times_scale_witness :
  field (state_of grid_refreshed "x") "range"
  = VNum (nmul (viewport_item sample_env (this_viewport grid_default) 2)
               (to_num sample_env (field (axis_of grid_refreshed AX) "scale"))).
Proof.
  refine (state_range_extent_times_scale sample_env grid_default VUndef grid_refreshed AX _ _ _).
  - apply grid_succeeds. vm_compute. reflexivity.
  - by left.
  - vm_compute. reflexivity.
Defined.

Lemma stored_offset_within_limits_witness :
  let range := nmul (viewport_item sample_env (this_viewport grid_default) 2)
                    (to_num sample_env (field (axis_of grid_far AX) "scale")) in
  let lo := to_num sample_env (field (axis_of grid_far AX) "min") in
  let hi := Math_max (nsub (to_num sample_env (field (axis_of grid_far AX) "max")) range) lo in
  exists offset,
    field (axis_of grid_far AX) "offset" = VNum offset /\
    nle lo offset = true /\ nle offset hi = true.
Proof.
  refine (stored_offset_within_limits sample_env grid_default (VObj opts_far) grid_far AX
            _ _ _ _ _ _).
  - apply grid_succeeds. vm_compute. reflexivity.
  - by left.
  - vm_compute. reflexivity.
  - vm_compute. reflexivity.
  - vm_compute. reflexivity.
  - vm_compute. reflexivity.
Defined.


Lemma getRatio_at_offset_witness :
  call sample_env FnYRatio [vnum 10; VObj state_10_100] = Some (vnum 1).
Proof.
  refine (getRatio_at_offset sample_env AY state_10_100 10%Q (Fin 100) _ _ _ _ _).
  - by right.
  - vm_compute. reflexivity.
  - vm_compute. reflexivity.
  - reflexivity.
  - reflexivity.
Defined.

Lemma getRatio_monotone_witness :
  exists t1 t2,
    call sample_env FnYRatio [vnum 20; VObj state_10_100] = Some (VNum t1) /\
    call sample_env FnYRatio [vnum 60; VObj state_10_100] = Some (VNum t2) /\
    nle t2 t1 = true.
Proof.
  refine (getRatio_monotone sample_env AY state_10_100 10%Q 100%Q 20%Q 60%Q _ _ _ _ _).
  - by right.
  - vm_compute. reflexivity.
  - vm_compute. reflexivity.
  - reflexivity.
  - vm_compute. discriminate.
Defined.

Lemma getCoords_segments_witness :
  let ratio v := ndiv (nsub (to_num sample_env v) (to_num sample_env (field state_10_100_x "offset")))
                      (to_num sample_env (field state_10_100_x "range")) in
  let segment v := [VNum (ratio v); vnum 0; VNum (ratio v); vnum 1] in
  exists coords,
    call sample_env FnXCoords [VArr [vnum 20; vnum 60]; VObj state_10_100_x]
    = Some (VArr coords) /\
    coords = concat (segment <$> [vnum 20; vnum 60]) /\
    length coords = 4 * length [vnum 20; vnum 60].
Proof.
  refine (getCoords_segments sample_env AX [vnum 20; vnum 60] state_10_100_x
            (proto_x sample_env) _ _ _).
  - by left.
  - vm_compute. reflexivity.
  - vm_compute. reflexivity.
Defined.
